(** * pi-gen-action: configuration model, validator and build invoker

    A shallow embedding of [src/pi-gen-config.ts] and [src/pi-gen.ts].

    JavaScript strings are modelled by [string], one [ascii] per UTF-16
    code unit, which covers the code units below 256.  Asynchronous
    functions are run to completion: every [await] in the sources is
    sequential, so a promise is modelled by the computation that settles it
    (a rejection is a thrown error). *)

From Stdlib Require Import String Ascii List ZArith Bool Arith Lia.
Import ListNotations.

Local Open Scope list_scope.
Local Open Scope string_scope.
Local Open Scope nat_scope.

(** ** JavaScript strings, arrays and regular expressions *)

Module JS.

Definition code (c : ascii) : nat := nat_of_ascii c.

Definition isUpper (c : ascii) : bool := (65 <=? code c) && (code c <=? 90).
Definition isLower (c : ascii) : bool := (97 <=? code c) && (code c <=? 122).

(** [\d] *)
Definition isDigit (c : ascii) : bool := (48 <=? code c) && (code c <=? 57).

(** [\s] on code units below 256: TAB, LF, VT, FF, CR, SPACE, NBSP. *)
Definition isSpace (c : ascii) : bool :=
  ((9 <=? code c) && (code c <=? 13)) || (code c =? 32) || (code c =? 160).

(** Line terminators on code units below 256: LF and CR. *)
Definition isLineTerminator (c : ascii) : bool :=
  (code c =? 10) || (code c =? 13).

(** Latin-1 capital letters other than the multiplication sign. *)
Definition isUpperLatin1 (c : ascii) : bool :=
  (192 <=? code c) && (code c <=? 222) && negb (code c =? 215).

Definition lowerChar (c : ascii) : ascii :=
  if isUpper c || isUpperLatin1 c then ascii_of_nat (code c + 32) else c.

(** Upper-casing of ASCII letters; every property name of [PiGenConfig] is
    ASCII. *)
Definition upperChar (c : ascii) : ascii :=
  if isLower c then ascii_of_nat (code c - 32) else c.

Fixpoint map_chars (f : ascii -> ascii) (s : string) : string :=
  match s with
  | EmptyString => EmptyString
  | String c s' => String (f c) (map_chars f s')
  end.

Definition toLowerCase : string -> string := map_chars lowerChar.
Definition toUpperCase : string -> string := map_chars upperChar.

(** [label.replace(/[A-Z]/g, letter => `_${letter}`)] *)
Fixpoint replace_upper_with_underscore (label : string) : string :=
  match label with
  | EmptyString => EmptyString
  | String c s' =>
      if isUpper c then String "_" (String c (replace_upper_with_underscore s'))
      else String c (replace_upper_with_underscore s')
  end.

(** [Array.prototype.includes] on an array of strings. *)
Definition includes (l : list string) (s : string) : bool :=
  existsb (String.eqb s) l.

(** [Array.prototype.join] *)
Fixpoint join (sep : string) (l : list string) : string :=
  match l with
  | [] => EmptyString
  | x :: rest =>
      match rest with
      | [] => x
      | _ :: _ => x ++ sep ++ join sep rest
      end
  end.

(** [s.split(sep)] for a separator of one code unit. *)
Fixpoint split (sep : ascii) (s : string) : list string :=
  match s with
  | EmptyString => [EmptyString]
  | String c s' =>
      if Ascii.eqb c sep then EmptyString :: split sep s'
      else match split sep s' with
           | [] => [String c EmptyString]
           | t :: ts => String c t :: ts
           end
  end.

(** [s.split(/\s+/)]: [inrun] tells that the previous code unit belonged to
    a separator already taken. *)
Fixpoint split_ws_from (inrun : bool) (s : string) : list string :=
  match s with
  | EmptyString => [EmptyString]
  | String c s' =>
      if isSpace c then
        if inrun then split_ws_from true s'
        else EmptyString :: split_ws_from true s'
      else match split_ws_from false s' with
           | [] => [String c EmptyString]
           | t :: ts => String c t :: ts
           end
  end.

Definition split_ws (s : string) : list string := split_ws_from false s.

(** ToBoolean of a value that is a string or [undefined]. *)
Definition truthy (v : option string) : bool :=
  match v with
  | Some (String _ _) => true
  | _ => false
  end.

(** ToBoolean of a function object. *)
Definition truthy_fn {A B : Type} (f : A -> B) : bool := true.

(** ToString of a value that is a string or [undefined]. *)
Definition to_string (v : option string) : string :=
  match v with
  | Some s => s
  | None => "undefined"
  end.

Definition dquote : string := String "034" EmptyString.
Definition newline : string := String "010" EmptyString.

Definition hexdigit (n : nat) : ascii :=
  if n <? 10 then ascii_of_nat (48 + n) else ascii_of_nat (87 + n).

(** QuoteJSONString *)
Fixpoint json_escape (s : string) : string :=
  match s with
  | EmptyString => EmptyString
  | String c s' =>
      let n := code c in
      (if n =? 34 then String "\" dquote
       else if n =? 92 then "\\"
       else if n =? 8 then "\b"
       else if n =? 9 then "\t"
       else if n =? 10 then "\n"
       else if n =? 12 then "\f"
       else if n =? 13 then "\r"
       else if n <? 32 then
         "\u00" ++ String (hexdigit (n / 16)) (String (hexdigit (n mod 16)) EmptyString)
       else String c EmptyString) ++ json_escape s'
  end.

Definition json_quote (s : string) : string := dquote ++ json_escape s ++ dquote.

(** [path.basename] (POSIX): trailing slashes are dropped, then the part
    after the last slash is kept.  It is computed on the reversed code
    units. *)
Fixpoint drop_slashes (l : list ascii) : list ascii :=
  match l with
  | c :: l' => if Ascii.eqb c "/" then drop_slashes l' else l
  | [] => []
  end.

Fixpoint take_to_slash (l : list ascii) : list ascii :=
  match l with
  | c :: l' => if Ascii.eqb c "/" then [] else c :: take_to_slash l'
  | [] => []
  end.

Definition basename (path : string) : string :=
  string_of_list_ascii
    (rev (take_to_slash (drop_slashes (rev (list_ascii_of_string path))))).

(** *** Regular expressions of the sources *)

(** [/^[0-9]$/.test(s)]: no flag, so the anchors are the two ends of [s]. *)
Definition test_single_digit (s : string) : bool :=
  match s with
  | String c EmptyString => isDigit c
  | _ => false
  end.

(** The pattern [^\s*\[(?:\d{2}:?){3}\].*] with the flags [gm], matched at
    one position: [prev] is the code unit before the position, [s] the
    text from it.  The result is the length of the match.  No alternative
    has to be retried: [\s*] is followed by a bracket, [:?] by a digit or a
    bracket. *)
Fixpoint skip_spaces (s : string) : nat * string :=
  match s with
  | String c s' =>
      if isSpace c then let '(n, r) := skip_spaces s' in (S n, r) else (0, s)
  | EmptyString => (0, s)
  end.

Fixpoint line_rest (s : string) : nat :=
  match s with
  | String c s' => if isLineTerminator c then 0 else S (line_rest s')
  | EmptyString => 0
  end.

(** [(?:\d{2}:?)] *)
Definition two_digits_colon (s : string) : option (nat * string) :=
  match s with
  | String d1 (String d2 r) =>
      if isDigit d1 && isDigit d2 then
        match r with
        | String ":" r' => Some (3, r')
        | _ => Some (2, r)
        end
      else None
  | _ => None
  end.

Definition log_pattern_at (prev : option ascii) (s : string) : option nat :=
  if match prev with None => true | Some p => isLineTerminator p end then
    let '(n0, s0) := skip_spaces s in
    match s0 with
    | String "[" s1 =>
        match two_digits_colon s1 with
        | Some (n1, s2) =>
            match two_digits_colon s2 with
            | Some (n2, s3) =>
                match two_digits_colon s3 with
                | Some (n3, String "]" s4) =>
                    Some (n0 + 1 + n1 + n2 + n3 + 1 + line_rest s4)
                | _ => None
                end
            | None => None
            end
        | None => None
        end
    | _ => None
    end
  else None.

(** The search of RegExpBuiltinExec without the sticky flag: the first
    position from [pos] on at which the pattern matches; the result is the
    end index of the match. *)
Fixpoint log_pattern_search (prev : option ascii) (s : string) (pos : nat)
  : option nat :=
  match log_pattern_at prev s with
  | Some len => Some (pos + len)
  | None =>
      match s with
      | EmptyString => None
      | String c s' => log_pattern_search (Some c) s' (S pos)
      end
  end.

(** The text from index [i] on with the code unit before it, when
    [i <= length s]. *)
Fixpoint suffix_at (prev : option ascii) (s : string) (i : nat) {struct i}
  : option (option ascii * string) :=
  match i with
  | 0 => Some (prev, s)
  | S i' =>
      match s with
      | EmptyString => None
      | String c s' => suffix_at (Some c) s' i'
      end
  end.

(** [pattern.test(line)] for the global pattern: the search starts at
    [lastIndex]; the result is paired with the new [lastIndex]. *)
Definition log_pattern_test (lastIndex : nat) (line : string) : bool * nat :=
  match suffix_at None line lastIndex with
  | None => (false, 0)
  | Some (prev, s) =>
      match log_pattern_search prev s lastIndex with
      | Some e => (true, e)
      | None => (false, 0)
      end
  end.

End JS.

Import JS.

(** ** Runtime: errors, the host, effects *)

Inductive Error : Type :=
| JsError (message : string)          (* [new Error(message)] *)
| TypeError (message : string)        (* a property read on [undefined] *)
| FsError (syscall path : string)     (* a failed call of [fs] *)
| WhichError (tool : string)          (* [io.which(tool, true)], tool not found *)
| ExecStartError (commandLine : string)
| ExecExitError (commandLine : string) (exitCode : Z).

Inductive Result (A : Type) : Type :=
| Ok (a : A)
| Throw (e : Error).

Arguments Ok {A} a.
Arguments Throw {A} e.

(** [fs.Stats]: [isDirectory] and [isFile] are methods. *)
Record Stats : Type := {
  isDirectory : unit -> bool;
  isFile : unit -> bool
}.

Inductive DirentKind : Type := RegularFile | Directory | OtherEntry.

(** [fs.Dirent], as [readdirSync] returns it with [withFileTypes]. *)
Record Dirent : Type := {
  name : string;
  kind : DirentKind
}.

Definition Dirent_isFile (entry : Dirent) : bool :=
  match kind entry with RegularFile => true | _ => false end.

Definition Dirent_isDirectory (entry : Dirent) : bool :=
  match kind entry with Directory => true | _ => false end.

(** The part of [exec.ExecOptions] that is not a listener.  [ignoreReturnCode]
    is [false] when the caller leaves it out. *)
Record ExecSettings : Type := {
  cwd : option string;
  env : option (list (string * string));
  silent : bool;
  ignoreReturnCode : bool
}.

Inductive OutputLine : Type :=
| Stdline (line : string)
| Errline (line : string).

(** What a started process does: the lines it prints, in order, and its
    exit code. *)
Record ProcessRun : Type := {
  pr_output : list OutputLine;
  pr_exitCode : Z
}.

(** [exec.ExecOutput] *)
Record ExecOutput : Type := {
  exitCode : Z;
  stdout : string;
  stderr : string
}.

(** The host the action runs on: file system, PATH lookup and processes.
    Nothing is assumed about it; [None] is a failed call. *)
Class Host (W : Type) : Type := {
  host_stat : W -> string -> option Stats;
  host_realpath : W -> string -> option string;
  host_readdir : W -> string -> option (list Dirent);
  host_exists : W -> string -> bool;
  host_writeFile : W -> string -> string -> option W;
  host_which : W -> string -> option string;
  host_spawn : W -> string -> list string -> ExecSettings -> option ProcessRun * W
}.

Inductive LogLevel : Type := Debug | Info | ErrorLevel | Warning.

(** What the action does to the outside, in order. *)
Inductive Event : Type :=
| Log (level : LogLevel) (message : string)
| WriteFile (path content : string)
| RmRF (path : string)
| Exec (commandLine : string) (args : list string) (options : ExecSettings).

Record State (W : Type) : Type := {
  host : W;
  trace : list Event
}.

Arguments host {W} s.
Arguments trace {W} s.
Arguments Build_State {W} host trace.

(** Computations that read and change the state and may throw. *)
Definition M (W A : Type) : Type := State W -> Result A * State W.

Definition ret {W A : Type} (a : A) : M W A := fun st => (Ok a, st).

Definition throw {W A : Type} (e : Error) : M W A := fun st => (Throw e, st).

Definition bind {W A B : Type} (m : M W A) (f : A -> M W B) : M W B :=
  fun st =>
    match m st with
    | (Ok a, st') => f a st'
    | (Throw e, st') => (Throw e, st')
    end.

(** [try { m } catch (error) { handler }] *)
Definition try_catch {W A : Type} (m : M W A) (handler : Error -> M W A)
  : M W A :=
  fun st =>
    match m st with
    | (Ok a, st') => (Ok a, st')
    | (Throw e, st') => handler e st'
    end.

Definition emit {W : Type} (ev : Event) : M W unit :=
  fun st => (Ok tt, Build_State (host st) (trace st ++ [ev])%list).

Notation "x <- c1 ;; c2" := (bind c1 (fun x => c2))
  (at level 61, c1 at next level, right associativity).
Notation "c1 ;; c2" := (bind c1 (fun _ => c2))
  (at level 61, right associativity).

(** JavaScript objects whose property values are strings: the own
    properties in creation order, which is the order of
    [Object.getOwnPropertyNames].  A property holding [undefined] is
    modelled as an absent one: every read in the sources treats the two
    alike. *)
Definition JSObject : Type := list (string * string).

Definition getOwnPropertyNames (o : JSObject) : list string := map fst o.

Fixpoint get (o : JSObject) (prop : string) : option string :=
  match o with
  | [] => None
  | (k, v) :: o' => if String.eqb k prop then Some v else get o' prop
  end.

(** [o[prop] = value]: an existing property keeps its place, a new one is
    added last. *)
Fixpoint set (o : JSObject) (prop value : string) : JSObject :=
  match o with
  | [] => [(prop, value)]
  | (k, v) :: o' =>
      if String.eqb k prop then (k, value) :: o'
      else (k, v) :: set o' prop value
  end.

(** [JSON.stringify] of such an object. *)
Definition JSON_stringify (o : JSObject) : string :=
  "{" ++ join "," (map (fun kv => json_quote (fst kv) ++ ":" ++ json_quote (snd kv)) o)
      ++ "}".

Section Primitives.

Context {W : Type} {HW : Host W}.

(** [fs.stat], [fs.statSync] *)
Definition fs_stat (path : string) : M W Stats :=
  fun st =>
    match host_stat (host st) path with
    | Some s => (Ok s, st)
    | None => (Throw (FsError "stat" path), st)
    end.

(** [fs.realpath], [fs.realpathSync] *)
Definition fs_realpath (path : string) : M W string :=
  fun st =>
    match host_realpath (host st) path with
    | Some p => (Ok p, st)
    | None => (Throw (FsError "realpath" path), st)
    end.

(** [fs.readdirSync(path, {withFileTypes: true})] *)
Definition fs_readdirSync (path : string) : M W (list Dirent) :=
  fun st =>
    match host_readdir (host st) path with
    | Some entries => (Ok entries, st)
    | None => (Throw (FsError "scandir" path), st)
    end.

(** [fs.existsSync] *)
Definition fs_existsSync (path : string) : M W bool :=
  fun st => (Ok (host_exists (host st) path), st).

(** [fs.writeFile] *)
Definition fs_writeFile (file data : string) : M W unit :=
  fun st =>
    match host_writeFile (host st) file data with
    | Some h' => (Ok tt, Build_State h' (trace st ++ [WriteFile file data])%list)
    | None => (Throw (FsError "open" file), st)
    end.

(** [io.which(tool, true)] *)
Definition io_which (tool : string) : M W string :=
  fun st =>
    match host_which (host st) tool with
    | Some p => (Ok p, st)
    | None => (Throw (WhichError tool), st)
    end.

(** [io.rmRF(path)] whose promise the caller drops: the removal is
    requested and happens after the caller's synchronous code. *)
Definition io_rmRF (path : string) : M W unit := emit (RmRF path).

Definition core_debug (message : string) : M W unit := emit (Log Debug message).
Definition core_info (message : string) : M W unit := emit (Log Info message).
Definition core_error (message : string) : M W unit := emit (Log ErrorLevel message).
Definition core_warning (message : string) : M W unit := emit (Log Warning message).

(** A line listener: it changes the state [S] of the object that owns it
    and the outside, and does not throw. *)
Definition Listener (S : Type) : Type := string -> S -> State W -> S * State W.

Fixpoint deliver {S : Type} (stdline errline : Listener S)
  (lines : list OutputLine) (s : S) (st : State W) : S * State W :=
  match lines with
  | [] => (s, st)
  | Stdline l :: rest =>
      let '(s', st') := stdline l s st in deliver stdline errline rest s' st'
  | Errline l :: rest =>
      let '(s', st') := errline l s st in deliver stdline errline rest s' st'
  end.

Fixpoint collect_stdout (lines : list OutputLine) : string :=
  match lines with
  | [] => EmptyString
  | Stdline l :: rest => l ++ newline ++ collect_stdout rest
  | Errline _ :: rest => collect_stdout rest
  end.

Fixpoint collect_stderr (lines : list OutputLine) : string :=
  match lines with
  | [] => EmptyString
  | Errline l :: rest => l ++ newline ++ collect_stderr rest
  | Stdline _ :: rest => collect_stderr rest
  end.

(** [exec.getExecOutput] of [@actions/exec] 1.1.1, the version package.json
    pins: the process runs to its end, each line goes to its listener, and
    the promise is rejected when the process did not start, or when its exit
    code is not zero and [ignoreReturnCode] is not set; otherwise it
    resolves with the exit code and the collected output. *)
Definition getExecOutput {S : Type} (commandLine : string) (args : list string)
  (options : ExecSettings) (stdline errline : Listener S) (s : S)
  : M W (S * ExecOutput) :=
  fun st =>
    let '(run, h') := host_spawn (host st) commandLine args options in
    let st1 := Build_State h' (trace st ++ [Exec commandLine args options])%list in
    match run with
    | None => (Throw (ExecStartError commandLine), st1)
    | Some pr =>
        let '(s', st2) := deliver stdline errline (pr_output pr) s st1 in
        if negb (pr_exitCode pr =? 0)%Z && negb (ignoreReturnCode options) then
          (Throw (ExecExitError commandLine (pr_exitCode pr)), st2)
        else
          (Ok (s', {| exitCode := pr_exitCode pr;
                      stdout := collect_stdout (pr_output pr);
                      stderr := collect_stderr (pr_output pr) |}), st2)
    end.

Definition no_listener : Listener unit := fun _ s st => (s, st).

End Primitives.

(** ** src/pi-gen-config.ts *)

(** [interface PiGenConfig]: a configuration is an object with these
    properties; the optional ones may be absent. *)
Definition PiGenConfig : Type := JSObject.

(** The properties of [PiGenConfig] in the order of their declaration. *)
Definition PiGenConfig_fields : list string :=
  [ "imgName"; "release"; "deployCompression"; "compressionLevel";
    "localeDefault"; "targetHostname"; "keyboardKeymap"; "keyboardLayout";
    "timezoneDefault"; "firstUserName"; "firstUserPass"; "wpaEssid";
    "wpaPassword"; "wpaCountry"; "enableSsh"; "pubkeySshFirstUser";
    "pubkeyOnlySsh"; "stageList"; "useQcow2" ].

Definition DEFAULT_CONFIG : PiGenConfig :=
  [ ("imgName", "test");
    ("release", "bullseye");
    ("deployCompression", "zip");
    ("compressionLevel", "6");
    ("localeDefault", "en_GB.UTF-8");
    ("targetHostname", "raspberrypi");
    ("keyboardKeymap", "gb");
    ("keyboardLayout", "English (UK)");
    ("timezoneDefault", "Europe/London");
    ("firstUserName", "pi");
    ("enableSsh", "0");
    ("pubkeyOnlySsh", "0");
    ("stageList", "stage*");
    ("useQcow2", "1") ].

Definition camelCaseToSnakeCase (label : string) : string :=
  toUpperCase (replace_upper_with_underscore label).

(** One line of the config file, [`${key}="${value}"`]. *)
Definition config_line (config : PiGenConfig) (prop : string) : string :=
  camelCaseToSnakeCase prop ++ "=" ++ dquote ++ to_string (get config prop) ++ dquote.

Definition configContent (config : PiGenConfig) : string :=
  join newline
    (map (config_line config)
       (filter (fun prop => truthy (get config prop)) (getOwnPropertyNames config))).

Definition silent_options : ExecSettings :=
  {| cwd := None; env := None; silent := true; ignoreReturnCode := false |}.

Definition msg_image_name : string := "image-name must not be empty".
Definition msg_release : string :=
  "release must be one of [" ++ dquote ++ "bullseye" ++ dquote ++ ", "
    ++ dquote ++ "jessie" ++ dquote ++ ", " ++ dquote ++ "stretch" ++ dquote ++ ", "
    ++ dquote ++ "buster" ++ dquote ++ ", " ++ dquote ++ "testing" ++ dquote ++ "]".
Definition msg_compression : string :=
  "compression must be one of [" ++ dquote ++ "none" ++ dquote ++ ", "
    ++ dquote ++ "zip" ++ dquote ++ ", " ++ dquote ++ "gz" ++ dquote ++ ", "
    ++ dquote ++ "xz" ++ dquote ++ "]".
Definition msg_compression_level : string :=
  "compression-level must be between 0 and 9".
Definition msg_locale : string :=
  "locale is not included in the list of supported locales (retrieved from /usr/share/i18n/SUPPORTED)".
Definition msg_hostname : string := "hostname must not be empty".
Definition msg_keyboard_keymap : string := "keyboard-keymap must not be empty".
Definition msg_keyboard_layout : string := "keyboard-layout must not be empty".
Definition msg_timezone : string :=
  "timezone is not included in output of " ++ dquote ++ "timedatectl list-timezones" ++ dquote.
Definition msg_username : string := "username must not be empty".
Definition msg_wpa_password : string :=
  "wpa-password must be between 8 and 63 characters (or unset)".
Definition msg_stage_list_empty : string := "stage-list must not be empty".
Definition msg_stage_list : string :=
  "stage-list must contain valid pi-gen stage names " ++ dquote ++ "stage[0-5]" ++ dquote
    ++ " and/or valid directories".

(** [Array.prototype.includes] with an argument that may be [undefined];
    the array holds strings only. *)
Definition includes_value (l : list string) (v : option string) : bool :=
  match v with
  | Some s => includes l s
  | None => false
  end.

(** [v?.length < n] and [v?.length > n]: a comparison with [undefined] is
    false. *)
Definition length_lt (v : option string) (n : nat) : bool :=
  match v with
  | Some s => String.length s <? n
  | None => false
  end.

Definition length_gt (v : option string) (n : nat) : bool :=
  match v with
  | Some s => n <? String.length s
  | None => false
  end.

Section Config.

Context {W : Type} {HW : Host W}.

(** [Object.values(PiGenStages)], its strings: src/pi-gen-stages.ts is not
    among the sources, so the enumeration is a parameter.  A number among
    the values of a numeric enum never equals a stage-list token. *)
Variable PiGenStages : list string.

(** The loop of [absolutizePiGenStages]. *)
Fixpoint resolve_stages (piGenDirectory : string) (stages : list string)
  : M W (list string) :=
  match stages with
  | [] => ret []
  | stage :: rest =>
      p <- fs_realpath (if includes PiGenStages stage
                        then piGenDirectory ++ "/" ++ stage
                        else stage) ;;
      ps <- resolve_stages piGenDirectory rest ;;
      ret (p :: ps)
  end.

(** The result is the state of the object passed in, which is changed in
    place and returned. *)
Definition absolutizePiGenStages (config : PiGenConfig) (piGenDirectory : string)
  : M W PiGenConfig :=
  match get config "stageList" with
  | None => throw (TypeError "Cannot read properties of undefined (reading 'split')")
  | Some stageList =>
      let stages := split " " stageList in
      core_debug ("Resolving directories to asbolute paths: " ++ join "," stages
                    ++ " using pi-gen base dir " ++ piGenDirectory) ;;
      stages' <- resolve_stages piGenDirectory stages ;;
      ret (set config "stageList" (join " " stages'))
  end.

(** The result is the state of the caller's object after the call. *)
Definition writeToFile (config : PiGenConfig) (piGenDirectory file : string)
  : M W PiGenConfig :=
  config' <- absolutizePiGenStages config piGenDirectory ;;
  fs_writeFile file (configContent config') ;;
  ret config'.

(** The body of the loop over the stage list in [validateConfig]. *)
Definition validate_stage (stageDir : string) : M W unit :=
  if negb (includes PiGenStages stageDir) then
    try_catch
      (stat <- fs_stat stageDir ;;
       if negb (truthy_fn (isDirectory stat)) then throw (JsError EmptyString)
       else ret tt)
      (fun _ => throw (JsError msg_stage_list))
  else ret tt.

Fixpoint validate_stages (stageDirs : list string) : M W unit :=
  match stageDirs with
  | [] => ret tt
  | stageDir :: rest => validate_stage stageDir ;; validate_stages rest
  end.

Definition validateConfig (config : PiGenConfig) : M W unit :=
  (if negb (truthy (get config "imgName"))
   then throw (JsError msg_image_name) else ret tt) ;;
  (if negb (includes_value ["bullseye"; "jessie"; "stretch"; "buster"; "testing"]
              (option_map toLowerCase (get config "release")))
   then throw (JsError msg_release) else ret tt) ;;
  (if negb (includes_value ["none"; "zip"; "gz"; "xz"]
              (option_map toLowerCase (get config "deployCompression")))
   then throw (JsError msg_compression) else ret tt) ;;
  (if negb (test_single_digit (to_string (get config "compressionLevel")))
   then throw (JsError msg_compression_level) else ret tt) ;;
  cutCmd <- io_which "cut" ;;
  locales <- getExecOutput cutCmd ["-d"; " "; "-f1"; "/usr/share/i18n/SUPPORTED"]
               silent_options no_listener no_listener tt ;;
  (let supportedLocales := split "010" (stdout (snd locales)) in
   if negb (includes_value supportedLocales (get config "localeDefault"))
   then throw (JsError msg_locale) else ret tt) ;;
  (if negb (truthy (get config "targetHostname"))
   then throw (JsError msg_hostname) else ret tt) ;;
  (if negb (truthy (get config "keyboardKeymap"))
   then throw (JsError msg_keyboard_keymap) else ret tt) ;;
  (if negb (truthy (get config "keyboardLayout"))
   then throw (JsError msg_keyboard_layout) else ret tt) ;;
  timezones <- getExecOutput "timedatectl" ["list-timezones"]
                 silent_options no_listener no_listener tt ;;
  (let supportedTimezones := split "010" (stdout (snd timezones)) in
   if negb (includes_value supportedTimezones (get config "timezoneDefault"))
   then throw (JsError msg_timezone) else ret tt) ;;
  (if negb (truthy (get config "firstUserName"))
   then throw (JsError msg_username) else ret tt) ;;
  (if truthy (get config "wpaPassword")
      && (length_lt (get config "wpaPassword") 8
          || length_gt (get config "wpaPassword") 63)
   then throw (JsError msg_wpa_password) else ret tt) ;;
  (if negb (truthy (get config "stageList"))
   then throw (JsError msg_stage_list_empty) else ret tt) ;;
  match get config "stageList" with
  | Some stageList => validate_stages (split " " stageList)
  | None => throw (TypeError "Cannot read properties of undefined (reading 'split')")
  end.

End Config.

(** ** src/pi-gen.ts *)

(** An instance of [class PiGen].  Of the pattern object only [lastIndex]
    changes.  [config] is the state of the configuration object the
    instance refers to. *)
Record PiGen : Type := {
  piGenDirectory : string;
  config : PiGenConfig;
  configFilePath : string;
  piGenBuildLogPattern_lastIndex : nat
}.

Inductive StreamName : Type := info | error.

Definition export_marker (stageDir : string) : string := stageDir ++ "/EXPORT_IMAGE".

Definition msg_custom_stage (stageDir : string) : string :=
  "Custom stage directory " ++ stageDir
    ++ " did not contain an EXPORT_IMAGE file, created it automatically".

Section Invoker.

Context {W : Type} {HW : Host W}.
Variable PiGenStages : list string.

Definition validatePigenDirectory (piGenDirectory : string) : M W bool :=
  dirStat <- fs_stat piGenDirectory ;;
  if negb (isDirectory dirStat tt) then
    core_debug ("Not a directory: " ++ piGenDirectory) ;;
    ret false
  else
    piGenDirContent <- fs_readdirSync piGenDirectory ;;
    let requiredFiles := ["build-docker.sh"; "Dockerfile"] in
    let requiredDirectories := PiGenStages in
    let existingFiles := map name (filter Dirent_isFile piGenDirContent) in
    let existingDirectories := map name (filter Dirent_isDirectory piGenDirContent) in
    if negb (forallb (fun file => includes existingFiles file) requiredFiles) then
      core_debug ("Not all required files in pi-gen dir. Required: "
                    ++ join ", " requiredFiles ++ " but found "
                    ++ join ", " existingFiles) ;;
      ret false
    else if negb (forallb (fun dir => includes existingDirectories dir)
                    requiredDirectories) then
      core_debug ("Not all required directories in pi-gen dir. Required: "
                    ++ join ", " requiredDirectories ++ " but found "
                    ++ join ", " existingDirectories) ;;
      ret false
    else ret true.

(** [new PiGen(piGenDirectory, config)] *)
Definition PiGen_new (piGenDirectory : string) (config : PiGenConfig) : M W PiGen :=
  valid <- validatePigenDirectory piGenDirectory ;;
  if negb valid then
    throw (JsError ("pi-gen directory at " ++ piGenDirectory ++ " is invalid"))
  else
    real <- fs_realpath piGenDirectory ;;
    ret {| piGenDirectory := piGenDirectory;
           config := config;
           configFilePath := real ++ "/config";
           piGenBuildLogPattern_lastIndex := 0 |}.

Definition set_lastIndex (this : PiGen) (lastIndex : nat) : PiGen :=
  {| piGenDirectory := piGenDirectory this;
     config := config this;
     configFilePath := configFilePath this;
     piGenBuildLogPattern_lastIndex := lastIndex |}.

(** [stream === 'info' ? core.info(line) : core.error(line)] *)
Definition surface (stream : StreamName) (line : string) (st : State W) : State W :=
  snd (match stream with
       | info => core_info line st
       | error => core_error line st
       end).

(** [verbose || pattern.test(line)]: the pattern is not consulted when
    [verbose] is set. *)
Definition logOutput (verbose : bool) (stream : StreamName) : Listener (W := W) PiGen :=
  fun line this st =>
    if verbose then (this, surface stream line st)
    else
      let '(matched, lastIndex) :=
        log_pattern_test (piGenBuildLogPattern_lastIndex this) line in
      if matched then (set_lastIndex this lastIndex, surface stream line st)
      else (set_lastIndex this lastIndex, st).

(** The loop of [configureStagesImageExport]. *)
Fixpoint export_stages (stageDirs : list string) : M W unit :=
  match stageDirs with
  | [] => ret tt
  | stageDir :: rest =>
      (if includes PiGenStages (basename stageDir) then
         io_rmRF (export_marker stageDir)
       else
         found <- fs_existsSync (export_marker stageDir) ;;
         if negb found then core_warning (msg_custom_stage stageDir) else ret tt) ;;
      export_stages rest
  end.

Definition configureStagesImageExport (this : PiGen) : M W unit :=
  match get (config this) "stageList" with
  | Some stageList => export_stages (split_ws stageList)
  | None => throw (TypeError "Cannot read properties of undefined (reading 'split')")
  end.

Fixpoint realpath_all (dirs : list string) : M W (list string) :=
  match dirs with
  | [] => ret []
  | userStageDir :: rest =>
      p <- fs_realpath userStageDir ;;
      ps <- realpath_all rest ;;
      ret (p :: ps)
  end.

Definition getStagesAsDockerMounts (this : PiGen) : M W string :=
  match get (config this) "stageList" with
  | Some stageList =>
      dirs <- realpath_all (split_ws stageList) ;;
      ret (join " " (map (fun userStageDir => "-v " ++ userStageDir ++ ":" ++ userStageDir) dirs))
  | None => throw (TypeError "Cannot read properties of undefined (reading 'split')")
  end.

Definition build_command : string := dquote ++ "./build-docker.sh" ++ dquote.

Definition build_options (this : PiGen) (dockerOpts : string) : ExecSettings :=
  {| cwd := Some (piGenDirectory this);
     env := Some [("PIGEN_DOCKER_OPTS", dockerOpts)];
     silent := true;
     ignoreReturnCode := false |}.

(** [build(verbose)]: the result comes with the state of the instance
    after the call. *)
Definition build (this : PiGen) (verbose : bool) : M W (PiGen * ExecOutput) :=
  core_debug ("Writing user config to " ++ configFilePath this) ;;
  config' <- writeToFile PiGenStages (config this) (piGenDirectory this)
               (configFilePath this) ;;
  let this := {| piGenDirectory := piGenDirectory this;
                 config := config';
                 configFilePath := configFilePath this;
                 piGenBuildLogPattern_lastIndex := piGenBuildLogPattern_lastIndex this |} in
  configureStagesImageExport this ;;
  dockerOpts <- getStagesAsDockerMounts this ;;
  core_debug ("Running pi-gen build with PIGEN_DOCKER_OPTS=" ++ dquote ++ dockerOpts
                ++ dquote ++ " and config: " ++ JSON_stringify (config this)) ;;
  getExecOutput build_command ["-c"; configFilePath this]
    (build_options this dockerOpts)
    (logOutput verbose info) (logOutput verbose error) this.

End Invoker.

(** ** The specification's wording *)

(** Modelled from the spec: the enumeration [PiGenStages] of
    src/pi-gen-stages.ts, which is not among the sources.  The spec speaks of
    a fixed enumeration of known stage identifiers; the message of
    [validateConfig] names them [stage[0-5]]. *)
Definition PiGenStages_values : list string :=
  ["stage0"; "stage1"; "stage2"; "stage3"; "stage4"; "stage5"].

(** The key of a field as the specification words it: each internal
    uppercase letter is preceded by an underscore, then the whole name is
    uppercased. *)
Definition spec_key (field : string) : string :=
  match field with
  | EmptyString => EmptyString
  | String c rest => toUpperCase (String c (replace_upper_with_underscore rest))
  end.

(** One line per field of [fields] whose value is not empty, in the order
    of [fields]. *)
Definition spec_lines (fields : list string) (config : PiGenConfig) : list string :=
  flat_map
    (fun field =>
       match get config field with
       | Some (String c v) => [spec_key field ++ "=" ++ dquote ++ String c v ++ dquote]
       | _ => []
       end)
    fields.

(** The config file as the specification words it: the lines follow the
    declaration order of the fields. *)
Definition spec_configContent (config : PiGenConfig) : string :=
  join newline (spec_lines PiGenConfig_fields config).

(** [l1] is [l2] with some elements left out. *)
Inductive subsequence {A : Type} : list A -> list A -> Prop :=
| subsequence_nil : subsequence [] []
| subsequence_skip (x : A) (l1 l2 : list A) :
    subsequence l1 l2 -> subsequence l1 (x :: l2)
| subsequence_take (x : A) (l1 l2 : list A) :
    subsequence l1 l2 -> subsequence (x :: l1) (x :: l2).

(** Where a token of the stage list is looked up: a known stage identifier
    relative to the build directory, any other token as given. *)
Definition stage_target (stages : list string) (piGenDirectory token : string)
  : string :=
  if includes stages token then piGenDirectory ++ "/" ++ token else token.

(** [path] is the canonical absolute path of [token] on the host [h]. *)
Definition resolves_to {W : Type} {HW : Host W} (stages : list string) (h : W)
  (piGenDirectory token path : string) : Prop :=
  host_realpath h (stage_target stages piGenDirectory token) = Some path.

(** The debug message of [absolutizePiGenStages]. *)
Definition msg_resolving (stageList piGenDirectory : string) : string :=
  "Resolving directories to asbolute paths: " ++ join "," (split " " stageList)
    ++ " using pi-gen base dir " ++ piGenDirectory.

(** A line of the config file as the specification writes it. *)
Definition kv (key value : string) : string := key ++ "=" ++ dquote ++ value ++ dquote.

(** The single decimal digits. *)
Definition decimal_digits : list string :=
  ["0"; "1"; "2"; "3"; "4"; "5"; "6"; "7"; "8"; "9"].

(** A Wi-Fi password of 8 to 63 characters. *)
Definition wpa_length_ok (password : string) : Prop :=
  8 <= String.length password <= 63.

(** The test of the Wi-Fi password check in [validateConfig]. *)
Definition wpaPassword_rejected (wpaPassword : option string) : bool :=
  truthy wpaPassword && (length_lt wpaPassword 8 || length_gt wpaPassword 63).

(** The three checks that [validateConfig] makes before it looks at the
    compression level. *)
Definition passes_until_compressionLevel (config : PiGenConfig) : Prop :=
  truthy (get config "imgName") = true /\
  includes_value ["bullseye"; "jessie"; "stretch"; "buster"; "testing"]
    (option_map toLowerCase (get config "release")) = true /\
  includes_value ["none"; "zip"; "gz"; "xz"]
    (option_map toLowerCase (get config "deployCompression")) = true.

(** How an error of [validateConfig] names the check that raised it. *)
Definition names_its_check (config : PiGenConfig) (e : Error) : Prop :=
  (e = JsError msg_compression_level ->
   test_single_digit (to_string (get config "compressionLevel")) = false) /\
  (e = JsError msg_wpa_password ->
   wpaPassword_rejected (get config "wpaPassword") = true).

(** The target directory is a directory that directly contains the two
    required files and one directory per known stage identifier. *)
Definition valid_pigen_directory {W : Type} {HW : Host W} (stages : list string)
  (h : W) (dir : string) : Prop :=
  exists dirStat entries,
    host_stat h dir = Some dirStat /\ isDirectory dirStat tt = true /\
    host_readdir h dir = Some entries /\
    In {| name := "build-docker.sh"; kind := RegularFile |} entries /\
    In {| name := "Dockerfile"; kind := RegularFile |} entries /\
    forall stage, In stage stages -> In {| name := stage; kind := Directory |} entries.

(** The events that change the outside: file writes, removals and
    processes. *)
Definition is_action (ev : Event) : bool :=
  match ev with
  | Log _ _ => false
  | _ => true
  end.

(** The starts of a process. *)
Definition is_exec (ev : Event) : bool :=
  match ev with
  | Exec _ _ _ => true
  | _ => false
  end.

(** The known stage identifiers are found by base name in the export
    step. *)
Definition known_stage_dir (stages : list string) (stageDir : string) : bool :=
  includes stages (basename stageDir).

(** What one entry of the stage list adds to the trace in the export
    step. *)
Definition export_events {W : Type} {HW : Host W} (stages : list string) (h : W)
  (stageDir : string) : list Event :=
  if known_stage_dir stages stageDir then [RmRF (export_marker stageDir)]
  else if host_exists h (export_marker stageDir) then []
       else [Log Warning (msg_custom_stage stageDir)].

(** What [exec.getExecOutput] resolves with for a finished process. *)
Definition output_of (pr : ProcessRun) : ExecOutput :=
  {| exitCode := pr_exitCode pr;
     stdout := collect_stdout (pr_output pr);
     stderr := collect_stderr (pr_output pr) |}.

(** [st'] is [st] after events none of which starts a process. *)
Definition quiet {W : Type} (st st' : State W) : Prop :=
  exists evs,
    trace st' = (trace st ++ evs)%list /\
    Forall (fun ev => is_exec ev = false) evs.

(** How a call of [build] that returned [r] in the state [st'] went: either
    it failed before the build script was started, or the script was started
    once, by one call of [exec.getExecOutput] that leaves [ignoreReturnCode]
    unset, and [r] is what that call settled with. *)
Definition build_outcome {W : Type} {HW : Host W} (this : PiGen)
  (st : State W) (r : Result (PiGen * ExecOutput)) (st' : State W) : Prop :=
  (exists e, r = Throw e /\ quiet st st') \/
  (exists this1 dockerOpts st1 run h' logs,
     quiet st st1 /\
     ignoreReturnCode (build_options this1 dockerOpts) = false /\
     host_spawn (host st1) build_command ["-c"; configFilePath this]
       (build_options this1 dockerOpts) = (run, h') /\
     trace st' = (trace st1
                  ++ Exec build_command ["-c"; configFilePath this]
                       (build_options this1 dockerOpts) :: logs)%list /\
     Forall (fun ev => is_exec ev = false) logs /\
     match run with
     | None => r = Throw (ExecStartError build_command)
     | Some pr =>
         if (pr_exitCode pr =? 0)%Z
         then exists this', r = Ok (this', output_of pr)
         else r = Throw (ExecExitError build_command (pr_exitCode pr))
     end).

(** A line as the line listeners receive it: no line terminator inside. *)
Fixpoint single_line (s : string) : bool :=
  match s with
  | EmptyString => true
  | String c s' => negb (isLineTerminator c) && single_line s'
  end.

(** The log events of the info channel. *)
Definition is_info (ev : Event) : bool :=
  match ev with
  | Log Info _ => true
  | _ => false
  end.

(** ** A host for examples *)

Record TestHost : Type := {
  th_kinds : list (string * DirentKind);
  th_real : list (string * string);
  th_entries : list (string * list Dirent);
  th_written : list (string * string);
  th_runs : list (string * ProcessRun)
}.

Fixpoint lookup {A : Type} (l : list (string * A)) (k : string) : option A :=
  match l with
  | [] => None
  | (k', a) :: l' => if String.eqb k' k then Some a else lookup l' k
  end.

Definition stats_of (k : DirentKind) : Stats :=
  {| isDirectory := fun _ => match k with Directory => true | _ => false end;
     isFile := fun _ => match k with RegularFile => true | _ => false end |}.

#[export] Instance TestHost_Host : Host TestHost := {|
  host_stat h p := option_map stats_of (lookup (th_kinds h) p);
  host_realpath h p := get (th_real h) p;
  host_readdir h p := lookup (th_entries h) p;
  host_exists h p :=
    match lookup (th_kinds h) p, get (th_written h) p with
    | None, None => false
    | _, _ => true
    end;
  host_writeFile h p data :=
    Some {| th_kinds := th_kinds h; th_real := th_real h;
            th_entries := th_entries h;
            th_written := set (th_written h) p data;
            th_runs := th_runs h |};
  host_which h tool := Some ("/usr/bin/" ++ tool);
  host_spawn h commandLine args options := (lookup (th_runs h) commandLine, h)
|}.

Definition file_entry (n : string) : Dirent := {| name := n; kind := RegularFile |}.
Definition dir_entry (n : string) : Dirent := {| name := n; kind := Directory |}.

Definition locale_run : ProcessRun :=
  {| pr_output := [Stdline "de_DE.UTF-8"; Stdline "en_GB.UTF-8"; Stdline "en_US.UTF-8"];
     pr_exitCode := 0 |}.

Definition timezone_run : ProcessRun :=
  {| pr_output := [Stdline "Europe/Berlin"; Stdline "Europe/London"];
     pr_exitCode := 0 |}.

(** A host with a complete pi-gen checkout at [/pi-gen], a custom stage
    directory, a regular file, and a build script that behaves as
    [build_run]. *)
Definition pi_host (build_run : ProcessRun) : TestHost :=
  {| th_kinds :=
       [ ("/pi-gen", Directory);
         ("/pi-gen/stage0", Directory); ("/pi-gen/stage1", Directory);
         ("/pi-gen/stage2", Directory); ("/pi-gen/stage3", Directory);
         ("/pi-gen/stage4", Directory); ("/pi-gen/stage5", Directory);
         ("custom-stage", Directory); ("/work/custom-stage", Directory);
         ("/work/notes.txt", RegularFile) ];
     th_real :=
       [ ("/pi-gen", "/pi-gen");
         ("/pi-gen/stage0", "/pi-gen/stage0"); ("/pi-gen/stage1", "/pi-gen/stage1");
         ("/pi-gen/stage2", "/pi-gen/stage2"); ("/pi-gen/stage3", "/pi-gen/stage3");
         ("/pi-gen/stage4", "/pi-gen/stage4"); ("/pi-gen/stage5", "/pi-gen/stage5");
         ("custom-stage", "/work/custom-stage");
         ("/work/custom-stage", "/work/custom-stage");
         ("/work/notes.txt", "/work/notes.txt") ];
     th_entries :=
       [ ("/pi-gen",
          [ file_entry "build-docker.sh"; file_entry "Dockerfile"; file_entry "README.md";
            dir_entry "stage0"; dir_entry "stage1"; dir_entry "stage2";
            dir_entry "stage3"; dir_entry "stage4"; dir_entry "stage5" ]) ];
     th_written := [];
     th_runs :=
       [ ("/usr/bin/cut", locale_run); ("timedatectl", timezone_run);
         (dquote ++ "./build-docker.sh" ++ dquote, build_run) ] |}.

(** The same checkout without its [stage3] directory. *)
Definition broken_host : TestHost :=
  {| th_kinds := [("/pi-gen", Directory)];
     th_real := [("/pi-gen", "/pi-gen")];
     th_entries :=
       [ ("/pi-gen",
          [ file_entry "build-docker.sh"; file_entry "Dockerfile";
            dir_entry "stage0"; dir_entry "stage1"; dir_entry "stage2";
            dir_entry "stage4"; dir_entry "stage5" ]) ];
     th_written := [];
     th_runs := [] |}.

Definition quiet_run : ProcessRun := {| pr_output := []; pr_exitCode := 0 |}.

(** Two timestamped lines in a row, then one that is not timestamped. *)
Definition timestamped_run : ProcessRun :=
  {| pr_output :=
       [ Stdline "[00:00:01] Begin stage0"; Stdline "[00:00:02] End stage0";
         Stdline "Unpacking base system" ];
     pr_exitCode := 0 |}.

(** A build that fails with exit code 1. *)
Definition failing_run : ProcessRun :=
  {| pr_output := [Stdline "[00:00:01] Begin stage0"; Errline "E: debootstrap failed"];
     pr_exitCode := 1 |}.

Definition start (h : TestHost) : State TestHost := Build_State h [].

(** [DEFAULT_CONFIG] with the stage list [stage0 stage1] of the
    specification's scenario. *)
Definition scenario_config : PiGenConfig := set DEFAULT_CONFIG "stageList" "stage0 stage1".

(** The properties of [scenario_config] created in another order:
    [imgName] last. *)
Definition reordered_config : PiGenConfig :=
  [ ("release", "bullseye");
    ("deployCompression", "zip");
    ("compressionLevel", "6");
    ("localeDefault", "en_GB.UTF-8");
    ("targetHostname", "raspberrypi");
    ("keyboardKeymap", "gb");
    ("keyboardLayout", "English (UK)");
    ("timezoneDefault", "Europe/London");
    ("firstUserName", "pi");
    ("enableSsh", "0");
    ("pubkeyOnlySsh", "0");
    ("stageList", "stage0 stage1");
    ("useQcow2", "1");
    ("imgName", "test") ].

(** A stage list whose only entry is a regular file. *)
Definition file_stage_config : PiGenConfig :=
  set DEFAULT_CONFIG "stageList" "/work/notes.txt".

(** A stage list with a built-in stage and a custom stage directory. *)
Definition custom_stage_config : PiGenConfig :=
  set DEFAULT_CONFIG "stageList" "stage0 custom-stage".

Definition the_pigen (c : PiGenConfig) : PiGen :=
  {| piGenDirectory := "/pi-gen";
     config := c;
     configFilePath := "/pi-gen/config";
     piGenBuildLogPattern_lastIndex := 0 |}.

(** Wi-Fi passwords of 7, 8, 63 and 64 characters. *)
Definition password_7 : string := "1234567".
Definition password_8 : string := "12345678".
Definition password_63 : string :=
  "123456789012345678901234567890123456789012345678901234567890123".
Definition password_64 : string :=
  "1234567890123456789012345678901234567890123456789012345678901234".

(** ** Further notions *)

(** The releases and compression modes that [validateConfig] lists. *)
Definition supported_releases : list string :=
  ["bullseye"; "jessie"; "stretch"; "buster"; "testing"].

Definition supported_compressions : list string := ["none"; "zip"; "gz"; "xz"].

(** The arguments of the two listings that [validateConfig] runs. *)
Definition locale_args : list string := ["-d"; " "; "-f1"; "/usr/share/i18n/SUPPORTED"].
Definition timezone_args : list string := ["list-timezones"].



(** No whitespace occurs in [s]. *)
Fixpoint whitespace_free (s : string) : bool :=
  match s with
  | EmptyString => true
  | String c s' => negb (isSpace c) && whitespace_free s'
  end.

(** A path that survives [join(' ')] followed by [split(/\s+/)]. *)
Definition plain_path (p : string) : Prop :=
  p <> EmptyString /\ whitespace_free p = true.

(** The bind mount of one stage directory. *)
Definition docker_mount (userStageDir : string) : string :=
  "-v " ++ userStageDir ++ ":" ++ userStageDir.

(** The log event of a line that is surfaced. *)
Definition log_of (l : OutputLine) : Event :=
  match l with
  | Stdline line => Log Info line
  | Errline line => Log ErrorLevel line
  end.



(** The message of the constructor. *)
Definition msg_invalid_directory (piGenDirectory : string) : string :=
  "pi-gen directory at " ++ piGenDirectory ++ " is invalid".

(** The two debug messages of [build]. *)
Definition msg_writing (this : PiGen) : string :=
  "Writing user config to " ++ configFilePath this.

Definition msg_running (dockerOpts : string) (config : PiGenConfig) : string :=
  "Running pi-gen build with PIGEN_DOCKER_OPTS=" ++ dquote ++ dockerOpts
    ++ dquote ++ " and config: " ++ JSON_stringify config.

(** The log events of the info and error channels. *)
Definition is_output_log (ev : Event) : bool :=
  match ev with
  | Log Info _ => true
  | Log ErrorLevel _ => true
  | _ => false
  end.

(** The pi-gen host whose locale listing fails with exit code 2. *)
Definition no_locale_host : TestHost :=
  {| th_kinds := th_kinds (pi_host quiet_run);
     th_real := th_real (pi_host quiet_run);
     th_entries := th_entries (pi_host quiet_run);
     th_written := [];
     th_runs :=
       [ ("/usr/bin/cut", {| pr_output := [Errline "cut: No such file"]; pr_exitCode := 2 |});
         ("timedatectl", timezone_run) ] |}.

(** A stage list already made of canonical paths. *)
Definition canonical_config : PiGenConfig :=
  set DEFAULT_CONFIG "stageList" "/pi-gen/stage0 /work/custom-stage".

(** * Properties *)

(** ** The monad *)

Lemma bind_Ok {W A B : Type} (m : M W A) (f : A -> M W B) st b st' :
  bind m f st = (Ok b, st') ->
  exists a st1, m st = (Ok a, st1) /\ f a st1 = (Ok b, st').
Proof.
  unfold bind. destruct (m st) as [[a | e] st1]; intros H.
  - exists a, st1. split; [reflexivity | exact H].
  - discriminate H.
Qed.

Lemma bind_Throw {W A B : Type} (m : M W A) (f : A -> M W B) st e st' :
  bind m f st = (Throw e, st') ->
  m st = (Throw e, st') \/
  exists a st1, m st = (Ok a, st1) /\ f a st1 = (Throw e, st').
Proof.
  unfold bind. destruct (m st) as [[a | e0] st1]; intros H.
  - right. exists a, st1. split; [reflexivity | exact H].
  - left. inversion H. reflexivity.
Qed.

Lemma bind_check {W B : Type} (c : bool) (e : Error) (f : unit -> M W B) st :
  bind (if c then throw e else ret tt) f st
  = if c then (Throw e, st) else f tt st.
Proof. destruct c; reflexivity. Qed.

(** ** Strings and objects *)

Lemma get_set_same (o : JSObject) (k v : string) : get (set o k v) k = Some v.
Proof.
  induction o as [| [k' v'] o IH]; simpl.
  - rewrite String.eqb_refl. reflexivity.
  - destruct (String.eqb k' k) eqn:E; simpl; rewrite E; [reflexivity | exact IH].
Qed.

Lemma get_set_other (o : JSObject) (k v k' : string) :
  k' <> k -> get (set o k v) k' = get o k'.
Proof.
  intros Hne. induction o as [| [k0 v0] o IH]; simpl.
  - destruct (String.eqb_spec k k'); [congruence | reflexivity].
  - destruct (String.eqb_spec k0 k) as [-> | Hk]; simpl.
    + destruct (String.eqb_spec k k'); [congruence | reflexivity].
    + destruct (String.eqb k0 k'); [reflexivity | exact IH].
Qed.

Lemma names_set_present (o : JSObject) (k v v0 : string) :
  get o k = Some v0 -> getOwnPropertyNames (set o k v) = getOwnPropertyNames o.
Proof.
  induction o as [| [k' v'] o IH]; simpl; [discriminate |].
  destruct (String.eqb_spec k' k) as [-> | Hk]; simpl; intros H.
  - reflexivity.
  - rewrite (IH H). reflexivity.
Qed.

Lemma includes_In (l : list string) (s : string) : includes l s = true <-> In s l.
Proof.
  unfold includes. rewrite existsb_exists. split.
  - intros (x & Hx & E). apply String.eqb_eq in E. subst. exact Hx.
  - intros H. exists s. split; [exact H | apply String.eqb_refl].
Qed.

Lemma test_single_digit_spec (s : string) :
  test_single_digit s = true <-> In s decimal_digits.
Proof.
  split.
  - destruct s as [| c [| c' s']]; simpl; try discriminate.
    destruct c as [[] [] [] [] [] [] [] []]; vm_compute; intros H;
      try discriminate H; tauto.
  - intros H. unfold decimal_digits in H. simpl in H.
    repeat (destruct H as [<- | H]; [reflexivity |]). contradiction.
Qed.

Lemma wpa_range_spec (p : string) :
  length_lt (Some p) 8 || length_gt (Some p) 63 = false <-> wpa_length_ok p.
Proof.
  unfold length_lt, length_gt, wpa_length_ok.
  destruct (Nat.ltb_spec (String.length p) 8) as [H8 | H8],
    (Nat.ltb_spec 63 (String.length p)) as [H63 | H63];
    simpl; split; intros Hr; try discriminate; try reflexivity; lia.
Qed.

Lemma truthy_nonempty (p : string) : truthy (Some p) = true <-> p <> EmptyString.
Proof.
  destruct p; simpl; split; intros H; try congruence; try reflexivity.
Qed.

(** ** validateConfig *)

Section ConfigFacts.

Context {W : Type} {HW : Host W}.
Variable PiGenStages : list string.

Lemma validate_stage_existing (stageDir : string) (st : State W) (s : Stats) :
  host_stat (host st) stageDir = Some s ->
  validate_stage PiGenStages stageDir st = (Ok tt, st).
Proof.
  intros Hs. unfold validate_stage, try_catch, bind, fs_stat.
  destruct (includes PiGenStages stageDir); [reflexivity |].
  simpl. rewrite Hs. reflexivity.
Qed.

Lemma validate_stage_known (stageDir : string) (st : State W) :
  includes PiGenStages stageDir = true ->
  validate_stage PiGenStages stageDir st = (Ok tt, st).
Proof. intros Hk. unfold validate_stage. rewrite Hk. reflexivity. Qed.

Lemma validate_stage_missing (stageDir : string) (st : State W) :
  includes PiGenStages stageDir = false ->
  host_stat (host st) stageDir = None ->
  validate_stage PiGenStages stageDir st = (Throw (JsError msg_stage_list), st).
Proof.
  intros Hk Hs. unfold validate_stage, try_catch, bind, fs_stat.
  rewrite Hk. simpl. rewrite Hs. reflexivity.
Qed.

Lemma validate_stage_result (stageDir : string) (st : State W) :
  validate_stage PiGenStages stageDir st = (Ok tt, st) \/
  validate_stage PiGenStages stageDir st = (Throw (JsError msg_stage_list), st).
Proof.
  destruct (includes PiGenStages stageDir) eqn:Hk.
  - left. apply validate_stage_known, Hk.
  - destruct (host_stat (host st) stageDir) eqn:Hs.
    + left. eapply validate_stage_existing, Hs.
    + right. apply validate_stage_missing; assumption.
Qed.

Lemma validate_stages_result (stageDirs : list string) (st : State W) :
  validate_stages PiGenStages stageDirs st = (Ok tt, st) \/
  validate_stages PiGenStages stageDirs st = (Throw (JsError msg_stage_list), st).
Proof.
  induction stageDirs as [| d rest IH]; simpl.
  - left. reflexivity.
  - unfold bind. destruct (validate_stage_result d st) as [-> | ->].
    + exact IH.
    + right. reflexivity.
Qed.

(** The stage loop accepts exactly when every token is a known stage or a
    path that [stat] finds, whatever that path is. *)
Lemma validate_stages_Ok (stageDirs : list string) (st : State W) :
  validate_stages PiGenStages stageDirs st = (Ok tt, st) <->
  Forall (fun d => includes PiGenStages d = true \/ host_stat (host st) d <> None)
    stageDirs.
Proof.
  induction stageDirs as [| d rest IH]; simpl.
  - split; [constructor | reflexivity].
  - unfold bind. split.
    + intros H. destruct (includes PiGenStages d) eqn:Hk.
      * rewrite (validate_stage_known _ _ Hk) in H.
        constructor; [left; exact Hk | apply IH, H].
      * destruct (host_stat (host st) d) eqn:Hs.
        -- rewrite (validate_stage_existing _ _ _ Hs) in H.
           constructor; [right; congruence | apply IH, H].
        -- rewrite (validate_stage_missing _ _ Hk Hs) in H. discriminate H.
    + intros H. inversion H as [| ? ? Hd Hrest]; subst.
      assert (Hv : validate_stage PiGenStages d st = (Ok tt, st)).
      { destruct Hd as [Hk | Hs].
        - apply validate_stage_known, Hk.
        - destruct (host_stat (host st) d) eqn:E; [| congruence].
          eapply validate_stage_existing, E. }
      rewrite Hv. apply IH, Hrest.
Qed.


Lemma io_which_Throw (tool : string) (st st' : State W) (e : Error) :
  io_which tool st = (Throw e, st') -> e = WhichError tool.
Proof.
  unfold io_which. destruct (host_which (host st) tool); intros H; inversion H.
  reflexivity.
Qed.

Lemma getExecOutput_Throw {S : Type} cmd args opts (l1 l2 : Listener S) s
  (st st' : State W) (e : Error) :
  getExecOutput cmd args opts l1 l2 s st = (Throw e, st') ->
  e = ExecStartError cmd \/ exists n, e = ExecExitError cmd n.
Proof.
  unfold getExecOutput. destruct (host_spawn (host st) cmd args opts) as [[pr |] h'].
  - destruct (deliver l1 l2 (pr_output pr) s _) as [s' st2].
    destruct (negb (pr_exitCode pr =? 0)%Z && negb (ignoreReturnCode opts));
      intros H; inversion H. right. eexists. reflexivity.
  - intros H. inversion H. left. reflexivity.
Qed.

Ltac other_message :=
  let E := fresh "E" in
  intros E; first
    [ discriminate E
    | injection E as E; vm_compute in E; discriminate E
    | destruct E as (? & E); discriminate E ].

Ltac check_throws H :=
  match type of H with
  | (if ?c then throw _ else ret tt) _ = _ =>
      let Hc := fresh "Hc" in
      destruct c eqn:Hc; [| discriminate H];
      inversion H; subst; clear H;
      split; first [ other_message
                   | intros _; first [ exact Hc | apply negb_true_iff, Hc ] ]
  end.

Lemma validateConfig_Throw (config : PiGenConfig) (st st' : State W) (e : Error) :
  validateConfig PiGenStages config st = (Throw e, st') ->
  names_its_check config e.
Proof.
  unfold validateConfig, names_its_check. intros H.
  do 4 (apply bind_Throw in H; destruct H as [H | (? & ? & _ & H)];
        [check_throws H |]).
  apply bind_Throw in H; destruct H as [H | (? & ? & _ & H)].
  { apply io_which_Throw in H. subst. split; other_message. }
  apply bind_Throw in H; destruct H as [H | (? & ? & _ & H)].
  { apply getExecOutput_Throw in H. destruct H as [-> | (n & ->)]; split; other_message. }
  do 4 (apply bind_Throw in H; destruct H as [H | (? & ? & _ & H)];
        [check_throws H |]).
  apply bind_Throw in H; destruct H as [H | (? & ? & _ & H)].
  { apply getExecOutput_Throw in H. destruct H as [-> | (n & ->)]; split; other_message. }
  do 4 (apply bind_Throw in H; destruct H as [H | (? & ? & _ & H)];
        [check_throws H |]).
  destruct (get config "stageList") as [stageList |].
  - match type of H with
    | validate_stages _ ?l ?s = _ =>
        destruct (validate_stages_result l s) as [E | E]
    end; rewrite E in H; inversion H; subst. split; other_message.
  - inversion H. split; other_message.
Qed.

Lemma bind_throws {A B : Type} (m : M W A) (f : A -> M W B) (st : State W) :
  (forall a st1, m st = (Ok a, st1) -> exists e st', f a st1 = (Throw e, st')) ->
  exists e st', bind m f st = (Throw e, st').
Proof.
  intros Hf. unfold bind. destruct (m st) as [[a | e] st1] eqn:E.
  - apply (Hf a st1). reflexivity.
  - exists e, st1. reflexivity.
Qed.

Lemma validateConfig_level_throws (config : PiGenConfig) (st : State W) :
  test_single_digit (to_string (get config "compressionLevel")) = false ->
  exists e st', validateConfig PiGenStages config st = (Throw e, st').
Proof.
  intros Hl. unfold validateConfig.
  do 3 (apply bind_throws; intros ? ? _).
  rewrite bind_check, Hl. simpl. eexists. eexists. reflexivity.
Qed.

Lemma validateConfig_level_error (config : PiGenConfig) (st : State W) :
  passes_until_compressionLevel config ->
  test_single_digit (to_string (get config "compressionLevel")) = false ->
  validateConfig PiGenStages config st = (Throw (JsError msg_compression_level), st).
Proof.
  intros (H1 & H2 & H3) Hl. unfold validateConfig.
  rewrite bind_check, H1. simpl.
  rewrite bind_check, H2. simpl.
  rewrite bind_check, H3. simpl.
  rewrite bind_check, Hl. reflexivity.
Qed.

Lemma validateConfig_wpa_throws (config : PiGenConfig) (st : State W) :
  wpaPassword_rejected (get config "wpaPassword") = true ->
  exists e st', validateConfig PiGenStages config st = (Throw e, st').
Proof.
  intros Hr. unfold validateConfig.
  do 13 (apply bind_throws; intros ? ? _).
  rewrite bind_check.
  change (truthy (get config "wpaPassword")
          && (length_lt (get config "wpaPassword") 8
              || length_gt (get config "wpaPassword") 63))
    with (wpaPassword_rejected (get config "wpaPassword")).
  rewrite Hr. eexists. eexists. reflexivity.
Qed.

(** [validateConfig] reads the Wi-Fi password through its test only. *)
Lemma validateConfig_depends (config1 config2 : PiGenConfig) (st : State W) :
  (forall k, k <> "wpaPassword" -> get config1 k = get config2 k) ->
  wpaPassword_rejected (get config1 "wpaPassword")
  = wpaPassword_rejected (get config2 "wpaPassword") ->
  validateConfig PiGenStages config1 st = validateConfig PiGenStages config2 st.
Proof.
  intros Hk Hr. unfold validateConfig.
  change (truthy (get config1 "wpaPassword")
          && (length_lt (get config1 "wpaPassword") 8
              || length_gt (get config1 "wpaPassword") 63))
    with (wpaPassword_rejected (get config1 "wpaPassword")).
  rewrite Hr.
  rewrite !(Hk "imgName"), !(Hk "release"), !(Hk "deployCompression"),
    !(Hk "compressionLevel"), !(Hk "localeDefault"), !(Hk "targetHostname"),
    !(Hk "keyboardKeymap"), !(Hk "keyboardLayout"), !(Hk "timezoneDefault"),
    !(Hk "firstUserName"), !(Hk "stageList") by discriminate.
  reflexivity.
Qed.

Lemma validateConfig_Ok_wpa (config : PiGenConfig) (st st' : State W) :
  validateConfig PiGenStages config st = (Ok tt, st') ->
  wpaPassword_rejected (get config "wpaPassword") = false.
Proof.
  unfold validateConfig. intros H.
  do 13 (apply bind_Ok in H; destruct H as (? & ? & _ & H)).
  apply bind_Ok in H. destruct H as (? & ? & Hm & _).
  unfold wpaPassword_rejected.
  destruct (truthy (get config "wpaPassword")
            && (length_lt (get config "wpaPassword") 8
                || length_gt (get config "wpaPassword") 63));
    [discriminate Hm | reflexivity].
Qed.

(** When everything but the Wi-Fi password is acceptable, a rejected
    password is what [validateConfig] reports. *)
Lemma validateConfig_wpa_error (config1 config2 : PiGenConfig) (st st2 : State W) :
  (forall k, k <> "wpaPassword" -> get config1 k = get config2 k) ->
  validateConfig PiGenStages config2 st = (Ok tt, st2) ->
  wpaPassword_rejected (get config1 "wpaPassword") = true ->
  exists st1,
    validateConfig PiGenStages config1 st = (Throw (JsError msg_wpa_password), st1).
Proof.
  intros Hk H Hr. unfold validateConfig in *.
  rewrite !(Hk "imgName"), !(Hk "release"), !(Hk "deployCompression"),
    !(Hk "compressionLevel"), !(Hk "localeDefault"), !(Hk "targetHostname"),
    !(Hk "keyboardKeymap"), !(Hk "keyboardLayout"), !(Hk "timezoneDefault"),
    !(Hk "firstUserName"), !(Hk "stageList") by discriminate.
  do 13 (apply bind_Ok in H; destruct H as (? & ? & Hm & H);
         unfold bind at 1; rewrite Hm; clear Hm).
  rewrite bind_check.
  change (truthy (get config1 "wpaPassword")
          && (length_lt (get config1 "wpaPassword") 8
              || length_gt (get config1 "wpaPassword") 63))
    with (wpaPassword_rejected (get config1 "wpaPassword")).
  rewrite Hr. eexists. reflexivity.
Qed.

End ConfigFacts.

(** ** Claims on validateConfig *)

Section ValidateConfigClaims.

Context {W : Type} {HW : Host W}.
Variable PiGenStages : list string.

(** C8.  [validateConfig] accepts the compression level if and only if it is
    a single decimal digit.  With a level among the strings 0 to 9 the
    compression-level error is never raised.  With any other level
    validation throws, and the error is the compression-level one as soon as
    the checks made before it (image name, release, compression) pass. *)
Theorem validateConfig_compressionLevel
  (config : PiGenConfig) (level : string) (st : State W) :
  get config "compressionLevel" = Some level ->
  (In level decimal_digits ->
   forall e st', validateConfig PiGenStages config st = (Throw e, st') ->
                 e <> JsError msg_compression_level) /\
  (~ In level decimal_digits ->
   (exists e st', validateConfig PiGenStages config st = (Throw e, st')) /\
   (passes_until_compressionLevel config ->
    validateConfig PiGenStages config st
    = (Throw (JsError msg_compression_level), st))).
Proof.
  intros Hl.
  assert (Hs : to_string (get config "compressionLevel") = level)
    by (rewrite Hl; reflexivity).
  split.
  - intros Hd e st' Hv He.
    destruct (validateConfig_Throw _ _ _ _ _ Hv) as [Hc _].
    specialize (Hc He). rewrite Hs in Hc.
    apply test_single_digit_spec in Hd. congruence.
  - intros Hd.
    assert (Ht : test_single_digit (to_string (get config "compressionLevel")) = false).
    { rewrite Hs. destruct (test_single_digit level) eqn:E; [| reflexivity].
      apply test_single_digit_spec in E. contradiction. }
    split.
    + apply validateConfig_level_throws, Ht.
    + intros Hp. apply validateConfig_level_error; assumption.
Qed.

(** C9, amended.  For every configuration whose Wi-Fi password is present
    and not empty, [validateConfig] accepts it if and only if its length is
    between 8 and 63: within the range the password error is never raised;
    outside it validation throws, and when the configuration is acceptable
    with some other password, it is accepted within the range and rejected
    with the password error outside it.  An absent password never raises
    the password error. *)
Theorem validateConfig_wpaPassword (config : PiGenConfig) (st : State W) :
  (get config "wpaPassword" = None ->
   forall e st', validateConfig PiGenStages config st = (Throw e, st') ->
                 e <> JsError msg_wpa_password) /\
  (forall password,
     get config "wpaPassword" = Some password -> password <> EmptyString ->
     (wpa_length_ok password ->
      forall e st', validateConfig PiGenStages config st = (Throw e, st') ->
                    e <> JsError msg_wpa_password) /\
     (~ wpa_length_ok password ->
      exists e st', validateConfig PiGenStages config st = (Throw e, st')) /\
     (forall other st2,
        validateConfig PiGenStages (set config "wpaPassword" other) st = (Ok tt, st2) ->
        (wpa_length_ok password ->
         validateConfig PiGenStages config st = (Ok tt, st2)) /\
        (~ wpa_length_ok password ->
         exists st1, validateConfig PiGenStages config st
                     = (Throw (JsError msg_wpa_password), st1)))).
Proof.
  split.
  - intros Hn e st' Hv He.
    destruct (validateConfig_Throw _ _ _ _ _ Hv) as [_ Hc].
    specialize (Hc He). rewrite Hn in Hc. discriminate Hc.
  - intros password Hp Hne.
    assert (Hin : wpa_length_ok password ->
                  wpaPassword_rejected (get config "wpaPassword") = false).
    { intros Hok. rewrite Hp. unfold wpaPassword_rejected.
      apply wpa_range_spec in Hok. rewrite Hok. apply andb_false_r. }
    assert (Hout : ~ wpa_length_ok password ->
                   wpaPassword_rejected (get config "wpaPassword") = true).
    { intros Hok. rewrite Hp. unfold wpaPassword_rejected.
      rewrite (proj2 (truthy_nonempty password) Hne), andb_true_l.
      destruct (length_lt (Some password) 8 || length_gt (Some password) 63) eqn:E;
        [reflexivity |]. apply wpa_range_spec in E. contradiction. }
    split; [| split].
    + intros Hok e st' Hv He.
      destruct (validateConfig_Throw _ _ _ _ _ Hv) as [_ Hc].
      specialize (Hc He). rewrite (Hin Hok) in Hc. discriminate Hc.
    + intros Hok. apply validateConfig_wpa_throws, Hout, Hok.
    + intros other st2 Hv. split.
      * intros Hok. rewrite <- Hv. apply validateConfig_depends.
        -- intros k Hkne. symmetry. apply get_set_other, Hkne.
        -- rewrite (Hin Hok). symmetry. eapply validateConfig_Ok_wpa, Hv.
      * intros Hok. eapply validateConfig_wpa_error; [| exact Hv | exact (Hout Hok)].
        intros k Hkne. symmetry. apply get_set_other, Hkne.
Qed.

(** C10.  A configuration whose Wi-Fi password is present but the empty
    string passes the password check although its length 0 is outside the
    range: [validateConfig] does on it exactly what it does on the same
    configuration without a password, and never raises the password
    error. *)
Theorem validateConfig_empty_wpaPassword
  (config config' : PiGenConfig) (st : State W) :
  get config "wpaPassword" = Some EmptyString ->
  get config' "wpaPassword" = None ->
  (forall k, k <> "wpaPassword" -> get config k = get config' k) ->
  ~ wpa_length_ok EmptyString /\
  validateConfig PiGenStages config st = validateConfig PiGenStages config' st /\
  forall e st', validateConfig PiGenStages config st = (Throw e, st') ->
                e <> JsError msg_wpa_password.
Proof.
  intros He Hn Hk. split; [| split].
  - unfold wpa_length_ok. simpl. lia.
  - apply validateConfig_depends; [exact Hk |]. rewrite He, Hn. reflexivity.
  - intros e st' Hv Hw.
    destruct (validateConfig_Throw _ _ _ _ _ Hv) as [_ Hc].
    specialize (Hc Hw). rewrite He in Hc. discriminate Hc.
Qed.

End ValidateConfigClaims.

Lemma validateConfig_compressionLevel_witness :
  validateConfig PiGenStages_values (set scenario_config "compressionLevel" "10")
    (start (pi_host quiet_run))
  = (Throw (JsError msg_compression_level), start (pi_host quiet_run)).
Proof.
  apply (validateConfig_compressionLevel PiGenStages_values
           (set scenario_config "compressionLevel" "10") "10"
           (start (pi_host quiet_run))).
  - reflexivity.
  - unfold decimal_digits. simpl. intros H.
    repeat (destruct H as [H | H]; [discriminate H |]). exact H.
  - unfold passes_until_compressionLevel. repeat split.
Defined.

Example compression_levels_accepted :
  forallb
    (fun level =>
       match fst (validateConfig PiGenStages_values
                    (set scenario_config "compressionLevel" level)
                    (start (pi_host quiet_run))) with
       | Ok _ => true
       | Throw _ => false
       end)
    decimal_digits = true.
Proof. vm_compute. reflexivity. Qed.

Example compression_level_a_rejected :
  fst (validateConfig PiGenStages_values (set scenario_config "compressionLevel" "a")
         (start (pi_host quiet_run)))
  = Throw (JsError msg_compression_level).
Proof. vm_compute. reflexivity. Qed.

Lemma validateConfig_wpaPassword_witness :
  (exists st1,
     validateConfig PiGenStages_values (set scenario_config "wpaPassword" password_7)
       (start (pi_host quiet_run))
     = (Throw (JsError msg_wpa_password), st1)) /\
  (exists st2,
     validateConfig PiGenStages_values (set scenario_config "wpaPassword" password_63)
       (start (pi_host quiet_run))
     = (Ok tt, st2)).
Proof.
  split.
  - destruct (validateConfig_wpaPassword PiGenStages_values
                (set scenario_config "wpaPassword" password_7)
                (start (pi_host quiet_run))) as [_ H].
    destruct (H password_7) as (_ & _ & H3); [reflexivity | discriminate |].
    destruct (H3 password_8
                (snd (validateConfig PiGenStages_values
                        (set scenario_config "wpaPassword" password_8)
                        (start (pi_host quiet_run))))) as [_ H4];
      [vm_compute; reflexivity |].
    apply H4. unfold wpa_length_ok, password_7. simpl. lia.
  - destruct (validateConfig_wpaPassword PiGenStages_values
                (set scenario_config "wpaPassword" password_63)
                (start (pi_host quiet_run))) as [_ H].
    destruct (H password_63) as (_ & _ & H3); [reflexivity | discriminate |].
    destruct (H3 password_8
                (snd (validateConfig PiGenStages_values
                        (set scenario_config "wpaPassword" password_8)
                        (start (pi_host quiet_run))))) as [H4 _];
      [vm_compute; reflexivity |].
    eexists. apply H4. unfold wpa_length_ok, password_63. simpl. lia.
Defined.

Example wpaPassword_boundaries :
  map (fun password =>
         fst (validateConfig PiGenStages_values
                (set scenario_config "wpaPassword" password)
                (start (pi_host quiet_run))))
    [password_7; password_8; password_63; password_64]
  = [Throw (JsError msg_wpa_password); Ok tt; Ok tt; Throw (JsError msg_wpa_password)].
Proof. vm_compute. reflexivity. Qed.

(** C9 as stated fails: the password is present, its length 0 is outside
    the range, and the configuration is accepted. *)
Lemma wpaPassword_present_empty_accepted :
  get (set scenario_config "wpaPassword" EmptyString) "wpaPassword" = Some EmptyString /\
  String.length EmptyString = 0 /\
  fst (validateConfig PiGenStages_values (set scenario_config "wpaPassword" EmptyString)
         (start (pi_host quiet_run)))
  = Ok tt.
Proof. vm_compute. repeat split. Qed.

Lemma validateConfig_empty_wpaPassword_witness :
  validateConfig PiGenStages_values (set scenario_config "wpaPassword" EmptyString)
    (start (pi_host quiet_run))
  = validateConfig PiGenStages_values scenario_config (start (pi_host quiet_run)).
Proof.
  apply (validateConfig_empty_wpaPassword PiGenStages_values
           (set scenario_config "wpaPassword" EmptyString) scenario_config
           (start (pi_host quiet_run))).
  - reflexivity.
  - reflexivity.
  - intros k Hk. apply get_set_other, Hk.
Defined.

(** C1, at the failing input.  The only token of the stage list is neither a
    known stage identifier nor a directory: it is a regular file, [stat]
    finds it, and [validateConfig] accepts the configuration. *)
Theorem validateConfig_accepts_regular_file :
  get file_stage_config "stageList" = Some "/work/notes.txt" /\
  includes PiGenStages_values "/work/notes.txt" = false /\
  option_map (fun s => isDirectory s tt)
    (host_stat (pi_host quiet_run) "/work/notes.txt") = Some false /\
  fst (validateConfig PiGenStages_values file_stage_config (start (pi_host quiet_run)))
  = Ok tt.
Proof. vm_compute. repeat split. Qed.

Example validateConfig_rejects_missing_path :
  fst (validateConfig PiGenStages_values (set DEFAULT_CONFIG "stageList" "stage0 nowhere")
         (start (pi_host quiet_run)))
  = Throw (JsError msg_stage_list).
Proof. vm_compute. reflexivity. Qed.

(** ** writeToFile *)

Section WriteFacts.

Context {W : Type} {HW : Host W}.
Variable PiGenStages : list string.

Lemma resolve_stages_Ok (dir : string) (stages paths : list string) (st : State W) :
  Forall2 (resolves_to PiGenStages (host st) dir) stages paths ->
  resolve_stages PiGenStages dir stages st = (Ok paths, st).
Proof.
  induction 1 as [| tok p stages paths Hp _ IH]; cbn [resolve_stages].
  - reflexivity.
  - unfold bind, fs_realpath. unfold resolves_to, stage_target in Hp.
    rewrite Hp, IH. reflexivity.
Qed.

Lemma resolve_stages_inv (dir : string) (stages : list string) (st : State W) r st' :
  resolve_stages PiGenStages dir stages st = (r, st') ->
  st' = st /\
  match r with
  | Ok paths => Forall2 (resolves_to PiGenStages (host st) dir) stages paths
  | Throw e =>
      exists tok, In tok stages /\
        host_realpath (host st) (stage_target PiGenStages dir tok) = None
  end.
Proof.
  revert r st'. induction stages as [| tok rest IH]; cbn [resolve_stages];
    intros r st' H.
  - inversion H. split; [reflexivity | constructor].
  - unfold bind, fs_realpath in H. fold (stage_target PiGenStages dir tok) in H.
    destruct (host_realpath (host st) (stage_target PiGenStages dir tok)) as [p |] eqn:Hp.
    + destruct (resolve_stages PiGenStages dir rest st) as [[ps | e] st1] eqn:Hr;
        destruct (IH _ _ eq_refl) as [-> Hrest]; inversion H; subst.
      * split; [reflexivity |]. constructor; assumption.
      * split; [reflexivity |]. destruct Hrest as (t & Ht & Hn).
        exists t. split; [right; exact Ht | exact Hn].
    + inversion H. subst. split; [reflexivity |].
      exists tok. split; [left; reflexivity | exact Hp].
Qed.

Lemma absolutize_Ok (config : PiGenConfig) (dir stageList : string)
  (paths : list string) (st : State W) :
  get config "stageList" = Some stageList ->
  Forall2 (resolves_to PiGenStages (host st) dir) (split " " stageList) paths ->
  absolutizePiGenStages PiGenStages config dir st
  = (Ok (set config "stageList" (join " " paths)),
     Build_State (host st)
       (trace st ++ [Log Debug (msg_resolving stageList dir)])%list).
Proof.
  intros Hs Hp. unfold absolutizePiGenStages. rewrite Hs.
  unfold bind, core_debug, emit.
  rewrite (resolve_stages_Ok dir _ paths); [reflexivity | exact Hp].
Qed.

Lemma absolutize_inv (config : PiGenConfig) (dir stageList : string)
  (st : State W) r st' :
  get config "stageList" = Some stageList ->
  absolutizePiGenStages PiGenStages config dir st = (r, st') ->
  st' = Build_State (host st)
          (trace st ++ [Log Debug (msg_resolving stageList dir)])%list /\
  match r with
  | Ok config' =>
      exists paths,
        Forall2 (resolves_to PiGenStages (host st) dir) (split " " stageList) paths /\
        config' = set config "stageList" (join " " paths)
  | Throw e =>
      exists tok, In tok (split " " stageList) /\
        host_realpath (host st) (stage_target PiGenStages dir tok) = None
  end.
Proof.
  intros Hs. unfold absolutizePiGenStages. rewrite Hs.
  unfold bind, core_debug, emit.
  destruct (resolve_stages PiGenStages dir (split " " stageList) _) as [[ps | e] st1] eqn:Hr;
    destruct (resolve_stages_inv _ _ _ _ _ Hr) as [-> Hrest]; intros H; inversion H; subst;
    (split; [reflexivity |]).
  - exists ps. split; [exact Hrest | reflexivity].
  - exact Hrest.
Qed.

Lemma writeToFile_inv (config : PiGenConfig) (dir file stageList : string)
  (st : State W) config' st' :
  get config "stageList" = Some stageList ->
  writeToFile PiGenStages config dir file st = (Ok config', st') ->
  exists paths h',
    Forall2 (resolves_to PiGenStages (host st) dir) (split " " stageList) paths /\
    config' = set config "stageList" (join " " paths) /\
    host_writeFile (host st) file (configContent config') = Some h' /\
    st' = Build_State h'
            (trace st ++ [Log Debug (msg_resolving stageList dir);
                          WriteFile file (configContent config')])%list.
Proof.
  intros Hs H. unfold writeToFile in H.
  apply bind_Ok in H. destruct H as (c1 & st1 & Ha & H).
  destruct (absolutize_inv _ _ _ _ _ _ Hs Ha) as [-> (paths & Hp & ->)].
  apply bind_Ok in H. destruct H as ([] & st2 & Hw & H).
  inversion H; subst. clear H.
  unfold fs_writeFile in Hw. cbn [host trace] in Hw.
  destruct (host_writeFile (host st) file _) as [h' |] eqn:Eh; inversion Hw; subst.
  exists paths, h'. repeat split; try assumption.
  rewrite <- app_assoc. reflexivity.
Qed.

(** C3.  Before the configuration is serialised, each token of the stage
    list is made absolute: a token that is a known stage identifier is
    resolved relative to the build directory, any other token as given, each
    by [realpath]; the stageList property of the configuration object is
    rewritten, in place, to these paths joined by spaces, and it is the
    rewritten object that [writeToFile] serialises. *)
Theorem absolutizePiGenStages_rewrites_stageList
  (config : PiGenConfig) (piGenDirectory stageList : string) (st : State W) :
  get config "stageList" = Some stageList ->
  (forall paths,
     Forall2 (resolves_to PiGenStages (host st) piGenDirectory)
       (split " " stageList) paths ->
     exists st1,
       absolutizePiGenStages PiGenStages config piGenDirectory st
       = (Ok (set config "stageList" (join " " paths)), st1) /\ host st1 = host st) /\
  (forall config' st1,
     absolutizePiGenStages PiGenStages config piGenDirectory st = (Ok config', st1) ->
     exists paths,
       Forall2 (resolves_to PiGenStages (host st) piGenDirectory)
         (split " " stageList) paths /\
       config' = set config "stageList" (join " " paths) /\
       get config' "stageList" = Some (join " " paths) /\
       getOwnPropertyNames config' = getOwnPropertyNames config /\
       forall prop, prop <> "stageList" -> get config' prop = get config prop) /\
  (forall file config' st',
     writeToFile PiGenStages config piGenDirectory file st = (Ok config', st') ->
     fst (absolutizePiGenStages PiGenStages config piGenDirectory st) = Ok config' /\
     trace st' = (trace st ++ [Log Debug (msg_resolving stageList piGenDirectory);
                               WriteFile file (configContent config')])%list).
Proof.
  intros Hs. split; [| split].
  - intros paths Hp. eexists. split.
    + apply absolutize_Ok; eassumption.
    + reflexivity.
  - intros config' st1 Ha.
    destruct (absolutize_inv _ _ _ _ _ _ Hs Ha) as [_ (paths & Hp & ->)].
    exists paths. repeat split.
    + exact Hp.
    + apply get_set_same.
    + eapply names_set_present, Hs.
    + intros prop Hne. apply get_set_other, Hne.
  - intros file config' st' Hw.
    destruct (writeToFile_inv _ _ _ _ _ _ _ Hs Hw) as (paths & h' & Hp & -> & _ & ->).
    split; [| reflexivity].
    rewrite (absolutize_Ok _ _ _ _ _ Hs Hp). reflexivity.
Qed.

(** *** The lines of the config file *)

Lemma map_filter_flat_map {A B : Type} (f : A -> B) (p : A -> bool) (l : list A) :
  map f (filter p l) = flat_map (fun x => if p x then [f x] else []) l.
Proof.
  induction l as [| x l IH]; simpl; [reflexivity |].
  destruct (p x); simpl; rewrite IH; reflexivity.
Qed.

Lemma flat_map_ext_in {A B : Type} (f g : A -> list B) (l : list A) :
  (forall x, In x l -> f x = g x) -> flat_map f l = flat_map g l.
Proof.
  induction l as [| x l IH]; simpl; intros H; [reflexivity |].
  rewrite (H x) by (left; reflexivity). rewrite IH; [reflexivity |].
  intros y Hy. apply H. right. exact Hy.
Qed.

Lemma declared_key (field : string) :
  In field PiGenConfig_fields -> camelCaseToSnakeCase field = spec_key field.
Proof.
  unfold PiGenConfig_fields. simpl. intros H.
  repeat (destruct H as [<- | H]; [reflexivity |]). contradiction.
Qed.

Lemma configContent_spec_lines (config : PiGenConfig) :
  Forall (fun prop => In prop PiGenConfig_fields) (getOwnPropertyNames config) ->
  configContent config
  = join newline (spec_lines (getOwnPropertyNames config) config).
Proof.
  intros Hd. unfold configContent, spec_lines. f_equal.
  rewrite map_filter_flat_map. apply flat_map_ext_in.
  intros prop Hin. rewrite Forall_forall in Hd.
  unfold config_line. rewrite (declared_key prop (Hd prop Hin)).
  destruct (get config prop) as [[| c v] |]; reflexivity.
Qed.

Lemma get_absent (o : JSObject) (prop : string) :
  ~ In prop (getOwnPropertyNames o) -> get o prop = None.
Proof.
  induction o as [| [k v] o IH]; simpl; intros H; [reflexivity |].
  destruct (String.eqb_spec k prop) as [-> | Hk].
  - exfalso. apply H. left. reflexivity.
  - apply IH. intros Hin. apply H. right. exact Hin.
Qed.

Lemma subsequence_In {A : Type} (l1 l2 : list A) (x : A) :
  subsequence l1 l2 -> In x l1 -> In x l2.
Proof.
  induction 1 as [| y l1 l2 _ IH | y l1 l2 _ IH]; simpl; intros H.
  - exact H.
  - right. apply IH, H.
  - destruct H as [-> | H]; [left; reflexivity | right; apply IH, H].
Qed.

(** Fields left out of the object contribute no line, so the lines of an
    object built in declaration order are the lines over all the fields. *)
Lemma spec_lines_subsequence (names fields : list string) (config : PiGenConfig) :
  subsequence names fields -> NoDup fields ->
  (forall prop, In prop fields -> ~ In prop names -> get config prop = None) ->
  spec_lines names config = spec_lines fields config.
Proof.
  unfold spec_lines.
  induction 1 as [| x l1 l2 Hsub IH | x l1 l2 Hsub IH]; intros Hnd Hget.
  - reflexivity.
  - inversion Hnd as [| ? ? Hx Hnd']; subst. simpl.
    rewrite (Hget x).
    + simpl. apply IH; [exact Hnd' |].
      intros prop Hin Hout. apply Hget; [right; exact Hin | exact Hout].
    + left. reflexivity.
    + intros Hin. apply Hx. eapply subsequence_In; eassumption.
  - inversion Hnd as [| ? ? Hx Hnd']; subst. simpl. f_equal.
    apply IH; [exact Hnd' |].
    intros prop Hin Hout. apply Hget; [right; exact Hin |].
    simpl. intros [E | Hin1]; [subst; exact (Hx Hin) | exact (Hout Hin1)].
Qed.

End WriteFacts.

Section WriteClaims.

Context {W : Type} {HW : Host W}.
Variable PiGenStages : list string.

(** C2, amended.  For every configuration object, [writeToFile] writes one
    line of the form KEY="value" per property whose value is not empty, where
    KEY is the property name with an underscore before each internal
    uppercase letter, uppercased; a property with an empty or absent value
    gives no line.  The lines come in the order in which the properties of
    the object were created; this is the declaration order of the fields
    when the object was built in that order. *)
Theorem writeToFile_lines
  (config : PiGenConfig) (piGenDirectory file : string) (st : State W)
  (config' : PiGenConfig) (st' : State W) :
  Forall (fun prop => In prop PiGenConfig_fields) (getOwnPropertyNames config) ->
  writeToFile PiGenStages config piGenDirectory file st = (Ok config', st') ->
  exists debug,
    trace st'
    = (trace st ++
       [debug;
        WriteFile file (join newline (spec_lines (getOwnPropertyNames config) config'))])%list /\
    (subsequence (getOwnPropertyNames config) PiGenConfig_fields ->
     join newline (spec_lines (getOwnPropertyNames config) config')
     = spec_configContent config').
Proof.
  intros Hd Hw.
  destruct (get config "stageList") as [stageList |] eqn:Hs.
  - destruct (writeToFile_inv _ _ _ _ _ _ _ _ Hs Hw) as (paths & h' & _ & Hc & _ & ->).
    assert (Hn : getOwnPropertyNames config' = getOwnPropertyNames config).
    { rewrite Hc. eapply names_set_present, Hs. }
    eexists. split.
    + cbn [trace]. rewrite configContent_spec_lines by (rewrite Hn; exact Hd).
      rewrite Hn. reflexivity.
    + intros Hsub. unfold spec_configContent. f_equal.
      apply spec_lines_subsequence.
      * exact Hsub.
      * unfold PiGenConfig_fields.
        repeat (constructor; [simpl; intuition discriminate |]). constructor.
      * intros prop _ Hout. apply get_absent. rewrite Hn. exact Hout.
  - unfold writeToFile, absolutizePiGenStages, bind in Hw. rewrite Hs in Hw.
    discriminate Hw.
Qed.

End WriteClaims.

Lemma writeToFile_lines_witness :
  exists debug,
    trace (snd (writeToFile PiGenStages_values scenario_config "/pi-gen" "/pi-gen/config"
                  (start (pi_host quiet_run))))
    = [debug;
       WriteFile "/pi-gen/config"
         (join newline
            [ kv "IMG_NAME" "test"; kv "RELEASE" "bullseye";
              kv "DEPLOY_COMPRESSION" "zip"; kv "COMPRESSION_LEVEL" "6";
              kv "LOCALE_DEFAULT" "en_GB.UTF-8"; kv "TARGET_HOSTNAME" "raspberrypi";
              kv "KEYBOARD_KEYMAP" "gb"; kv "KEYBOARD_LAYOUT" "English (UK)";
              kv "TIMEZONE_DEFAULT" "Europe/London"; kv "FIRST_USER_NAME" "pi";
              kv "ENABLE_SSH" "0"; kv "PUBKEY_ONLY_SSH" "0";
              kv "STAGE_LIST" "/pi-gen/stage0 /pi-gen/stage1"; kv "USE_QCOW2" "1" ])].
Proof.
  destruct (writeToFile_lines PiGenStages_values scenario_config "/pi-gen" "/pi-gen/config"
              (start (pi_host quiet_run))
              (set scenario_config "stageList" "/pi-gen/stage0 /pi-gen/stage1")
              (snd (writeToFile PiGenStages_values scenario_config "/pi-gen"
                      "/pi-gen/config" (start (pi_host quiet_run)))))
    as (debug & Ht & _).
  - unfold scenario_config, PiGenConfig_fields. simpl.
    repeat (constructor; [simpl; tauto |]). constructor.
  - vm_compute. reflexivity.
  - exists debug. rewrite Ht. vm_compute. reflexivity.
Defined.

(** C2 as stated fails: the properties of this configuration were created
    with [imgName] last, and so the line of [imgName] is the last one
    written, while the declaration order puts it first. *)
Lemma writeToFile_follows_creation_order :
  let r := writeToFile PiGenStages_values reordered_config "/pi-gen" "/pi-gen/config"
             (start (pi_host quiet_run)) in
  let written :=
    join newline
      [ kv "RELEASE" "bullseye"; kv "DEPLOY_COMPRESSION" "zip";
        kv "COMPRESSION_LEVEL" "6"; kv "LOCALE_DEFAULT" "en_GB.UTF-8";
        kv "TARGET_HOSTNAME" "raspberrypi"; kv "KEYBOARD_KEYMAP" "gb";
        kv "KEYBOARD_LAYOUT" "English (UK)"; kv "TIMEZONE_DEFAULT" "Europe/London";
        kv "FIRST_USER_NAME" "pi"; kv "ENABLE_SSH" "0"; kv "PUBKEY_ONLY_SSH" "0";
        kv "STAGE_LIST" "/pi-gen/stage0 /pi-gen/stage1"; kv "USE_QCOW2" "1";
        kv "IMG_NAME" "test" ] in
  let declared :=
    join newline
      [ kv "IMG_NAME" "test"; kv "RELEASE" "bullseye"; kv "DEPLOY_COMPRESSION" "zip";
        kv "COMPRESSION_LEVEL" "6"; kv "LOCALE_DEFAULT" "en_GB.UTF-8";
        kv "TARGET_HOSTNAME" "raspberrypi"; kv "KEYBOARD_KEYMAP" "gb";
        kv "KEYBOARD_LAYOUT" "English (UK)"; kv "TIMEZONE_DEFAULT" "Europe/London";
        kv "FIRST_USER_NAME" "pi"; kv "ENABLE_SSH" "0"; kv "PUBKEY_ONLY_SSH" "0";
        kv "STAGE_LIST" "/pi-gen/stage0 /pi-gen/stage1"; kv "USE_QCOW2" "1" ] in
  fst r = Ok (set reordered_config "stageList" "/pi-gen/stage0 /pi-gen/stage1") /\
  last (trace (snd r)) (RmRF EmptyString) = WriteFile "/pi-gen/config" written /\
  spec_configContent (set reordered_config "stageList" "/pi-gen/stage0 /pi-gen/stage1")
  = declared /\
  written <> declared.
Proof.
  vm_compute. repeat split. intros H. discriminate H.
Qed.

Lemma absolutizePiGenStages_rewrites_stageList_witness :
  exists st1,
    absolutizePiGenStages PiGenStages_values custom_stage_config "/pi-gen"
      (start (pi_host quiet_run))
    = (Ok (set custom_stage_config "stageList"
             (join " " ["/pi-gen/stage0"; "/work/custom-stage"])), st1) /\
    host st1 = host (start (pi_host quiet_run)).
Proof.
  apply (proj1 (absolutizePiGenStages_rewrites_stageList PiGenStages_values
                  custom_stage_config "/pi-gen" "stage0 custom-stage"
                  (start (pi_host quiet_run)) eq_refl)).
  repeat constructor.
Defined.

(** ** The build invoker *)

Lemma length_append (a b : string) :
  String.length (a ++ b) = String.length a + String.length b.
Proof. induction a as [| c a IH]; simpl; [reflexivity | rewrite IH; reflexivity]. Qed.

Lemma append_cancel_r (a b s : string) : a ++ s = b ++ s -> a = b.
Proof.
  revert b. induction a as [| c a IH]; intros [| d b] H; simpl in H.
  - reflexivity.
  - apply (f_equal String.length) in H. simpl in H. rewrite length_append in H. lia.
  - apply (f_equal String.length) in H. simpl in H. rewrite length_append in H. lia.
  - injection H as -> H. rewrite (IH b H). reflexivity.
Qed.

Lemma export_marker_inj (d1 d2 : string) : export_marker d1 = export_marker d2 -> d1 = d2.
Proof. unfold export_marker. apply append_cancel_r. Qed.

Section InvokerFacts.

Context {W : Type} {HW : Host W}.
Variable PiGenStages : list string.

Lemma export_stages_run (stageDirs : list string) (st : State W) :
  export_stages PiGenStages stageDirs st
  = (Ok tt, Build_State (host st)
              (trace st ++ flat_map (export_events PiGenStages (host st)) stageDirs)).
Proof.
  revert st. induction stageDirs as [| d rest IH]; intros st; cbn [export_stages flat_map].
  - unfold ret. rewrite app_nil_r. destruct st; reflexivity.
  - unfold bind at 1. unfold export_events at 1. unfold known_stage_dir.
    destruct (includes PiGenStages (basename d)).
    + unfold io_rmRF, emit. rewrite IH. cbn [host trace].
      rewrite <- app_assoc. reflexivity.
    + unfold bind, fs_existsSync.
      destruct (host_exists (host st) (export_marker d)); cbn [negb].
      * unfold ret. rewrite IH. reflexivity.
      * unfold core_warning, emit. rewrite IH. cbn [host trace].
        rewrite <- app_assoc. reflexivity.
Qed.

(** C7.  In the export step, for every whitespace-delimited entry of the
    stage list whose base name is a known stage identifier, the removal of
    the EXPORT_IMAGE file inside it is requested; for every entry whose base
    name is not a known identifier and that lacks the file, a warning is
    emitted and nothing else: the step writes no file, changes nothing on
    the host itself, and requests no removal inside such an entry. *)
Theorem configureStagesImageExport_effects
  (this : PiGen) (stageList : string) (st : State W) :
  get (config this) "stageList" = Some stageList ->
  exists events,
    configureStagesImageExport PiGenStages this st
    = (Ok tt, Build_State (host st) (trace st ++ events)) /\
    (forall stageDir, In stageDir (split_ws stageList) ->
       if known_stage_dir PiGenStages stageDir
       then In (RmRF (export_marker stageDir)) events
       else (host_exists (host st) (export_marker stageDir) = false ->
             In (Log Warning (msg_custom_stage stageDir)) events) /\
            ~ In (RmRF (export_marker stageDir)) events) /\
    (forall ev, In ev events ->
       exists stageDir,
         In stageDir (split_ws stageList) /\
         ((known_stage_dir PiGenStages stageDir = true /\
           ev = RmRF (export_marker stageDir)) \/
          (known_stage_dir PiGenStages stageDir = false /\
           host_exists (host st) (export_marker stageDir) = false /\
           ev = Log Warning (msg_custom_stage stageDir)))).
Proof.
  intros Hs. exists (flat_map (export_events PiGenStages (host st)) (split_ws stageList)).
  assert (Hev : forall ev,
             In ev (flat_map (export_events PiGenStages (host st)) (split_ws stageList)) ->
             exists stageDir,
               In stageDir (split_ws stageList) /\
               ((known_stage_dir PiGenStages stageDir = true /\
                 ev = RmRF (export_marker stageDir)) \/
                (known_stage_dir PiGenStages stageDir = false /\
                 host_exists (host st) (export_marker stageDir) = false /\
                 ev = Log Warning (msg_custom_stage stageDir)))).
  { intros ev Hin. apply in_flat_map in Hin. destruct Hin as (d & Hd & Hin).
    exists d. split; [exact Hd |]. unfold export_events in Hin.
    destruct (known_stage_dir PiGenStages d) eqn:Hk.
    - destruct Hin as [<- | []]. left. split; reflexivity.
    - destruct (host_exists (host st) (export_marker d)) eqn:He; [destruct Hin |].
      destruct Hin as [<- | []]. right. repeat split. }
  split; [| split].
  - unfold configureStagesImageExport. rewrite Hs. apply export_stages_run.
  - intros d Hd. destruct (known_stage_dir PiGenStages d) eqn:Hk.
    + apply in_flat_map. exists d. split; [exact Hd |].
      unfold export_events. rewrite Hk. left. reflexivity.
    + split.
      * intros He. apply in_flat_map. exists d. split; [exact Hd |].
        unfold export_events. rewrite Hk, He. left. reflexivity.
      * intros Hin. destruct (Hev _ Hin) as (d' & _ & [[Hk' E] | (_ & _ & E)]).
        -- injection E as E. apply export_marker_inj in E. subst d'. congruence.
        -- discriminate E.
  - exact Hev.
Qed.

(** *** The constructor *)

Lemma includes_existing_files (entries : list Dirent) (file : string) :
  includes (map name (filter Dirent_isFile entries)) file = true <->
  In {| name := file; kind := RegularFile |} entries.
Proof.
  rewrite includes_In, in_map_iff. split.
  - intros ([n k] & Hn & Hin). apply filter_In in Hin. destruct Hin as [Hin Hf].
    simpl in Hn. subst n. unfold Dirent_isFile in Hf. simpl in Hf.
    destruct k; try discriminate Hf. exact Hin.
  - intros Hin. eexists. split; [| apply filter_In; split; [exact Hin | reflexivity]].
    reflexivity.
Qed.

Lemma includes_existing_directories (entries : list Dirent) (dir : string) :
  includes (map name (filter Dirent_isDirectory entries)) dir = true <->
  In {| name := dir; kind := Directory |} entries.
Proof.
  rewrite includes_In, in_map_iff. split.
  - intros ([n k] & Hn & Hin). apply filter_In in Hin. destruct Hin as [Hin Hf].
    simpl in Hn. subst n. unfold Dirent_isDirectory in Hf. simpl in Hf.
    destruct k; try discriminate Hf. exact Hin.
  - intros Hin. eexists. split; [| apply filter_In; split; [exact Hin | reflexivity]].
    reflexivity.
Qed.

Lemma state_eta (st : State W) : Build_State (host st) (trace st ++ []) = st.
Proof. rewrite app_nil_r. destruct st; reflexivity. Qed.

Lemma validatePigenDirectory_spec (dir : string) (st : State W) :
  exists r logs,
    validatePigenDirectory PiGenStages dir st
    = (r, Build_State (host st) (trace st ++ logs)) /\
    Forall (fun ev => is_action ev = false) logs /\
    (r = Ok true <-> valid_pigen_directory PiGenStages (host st) dir).
Proof.
  unfold validatePigenDirectory, valid_pigen_directory, bind, fs_stat, fs_readdirSync.
  destruct (host_stat (host st) dir) as [dirStat |] eqn:Hstat.
  2:{ eexists. exists []. rewrite state_eta. split; [reflexivity |].
      split; [constructor |]. split; [discriminate |].
      intros (? & ? & H & _). discriminate H. }
  destruct (isDirectory dirStat tt) eqn:Hdir; cbn [negb].
  2:{ eexists. eexists. unfold core_debug, emit, ret. cbn [host trace].
      split; [reflexivity |]. split; [repeat constructor |].
      split; [discriminate |].
      intros (s & ? & H & Hd & _). inversion H; subst. congruence. }
  destruct (host_readdir (host st) dir) as [entries |] eqn:Hread.
  2:{ eexists. exists []. rewrite state_eta. split; [reflexivity |].
      split; [constructor |]. split; [discriminate |].
      intros (? & ? & _ & _ & H & _). discriminate H. }
  destruct (forallb (fun file => includes (map name (filter Dirent_isFile entries)) file)
              ["build-docker.sh"; "Dockerfile"]) eqn:Hfiles; cbn [negb].
  2:{ eexists. eexists. unfold core_debug, emit, ret. cbn [host trace].
      split; [reflexivity |]. split; [repeat constructor |].
      split; [discriminate |].
      intros (s & es & _ & _ & H & Hb & Hd & _). inversion H; subst es.
      apply includes_existing_files in Hb, Hd.
      cbn [forallb] in Hfiles. rewrite Hb, Hd in Hfiles. discriminate Hfiles. }
  destruct (forallb (fun d => includes (map name (filter Dirent_isDirectory entries)) d)
              PiGenStages) eqn:Hdirs; cbn [negb].
  2:{ eexists. eexists. unfold core_debug, emit, ret. cbn [host trace].
      split; [reflexivity |]. split; [repeat constructor |].
      split; [discriminate |].
      intros (s & es & _ & _ & H & _ & _ & Hst). inversion H; subst es.
      assert (Hall : forallb (fun d => includes (map name (filter Dirent_isDirectory entries)) d)
                       PiGenStages = true).
      { apply forallb_forall. intros d Hd. apply includes_existing_directories, Hst, Hd. }
      congruence. }
  eexists. exists []. rewrite state_eta. split; [reflexivity |].
  split; [constructor |]. split; [| reflexivity].
  intros _. exists dirStat, entries.
  cbn [forallb] in Hfiles. apply andb_true_iff in Hfiles. destruct Hfiles as [Hb Hd].
  apply andb_true_iff in Hd. destruct Hd as [Hd _].
  repeat split; try assumption.
  - apply includes_existing_files, Hb.
  - apply includes_existing_files, Hd.
  - intros stage Hin. apply includes_existing_directories.
    rewrite forallb_forall in Hdirs. apply Hdirs, Hin.
Qed.

(** C6.  Constructing the invoker succeeds if and only if the target is a
    directory that directly contains the files build-docker.sh and
    Dockerfile and one directory per known stage identifier; otherwise the
    constructor throws.  The constructor itself writes no file, requests no
    removal and starts no process, and an instance exists only for a
    directory that passed the check. *)
Theorem PiGen_new_requires_valid_directory
  (piGenDirectory : string) (config : PiGenConfig) (st : State W) :
  (host_stat (host st) piGenDirectory <> None ->
   host_realpath (host st) piGenDirectory <> None) ->
  ((exists this st', PiGen_new PiGenStages piGenDirectory config st = (Ok this, st')) <->
   valid_pigen_directory PiGenStages (host st) piGenDirectory) /\
  (forall r st',
     PiGen_new PiGenStages piGenDirectory config st = (r, st') ->
     (~ valid_pigen_directory PiGenStages (host st) piGenDirectory ->
      exists e, r = Throw e) /\
     host st' = host st /\
     exists logs,
       trace st' = (trace st ++ logs)%list /\
       Forall (fun ev => is_action ev = false) logs).
Proof.
  intros Hreal.
  destruct (validatePigenDirectory_spec piGenDirectory st) as (v & logs & Hv & Hlogs & Hiff).
  unfold PiGen_new, bind, fs_realpath. rewrite Hv.
  destruct v as [[|] | e]; cbn [negb host trace].
  - assert (Hvalid : valid_pigen_directory PiGenStages (host st) piGenDirectory)
      by (apply Hiff; reflexivity).
    destruct (host_realpath (host st) piGenDirectory) as [real |] eqn:Hr.
    + split.
      * split; [intros _; exact Hvalid | intros _; eexists; eexists; reflexivity].
      * intros r st' H. inversion H; subst. cbn [host trace].
        split; [intros Hn; contradiction |]. split; [reflexivity |].
        exists logs. split; [reflexivity | exact Hlogs].
    + exfalso. apply Hreal; [| reflexivity].
      destruct Hvalid as (s & ? & Hs & _). congruence.
  - assert (Hinvalid : ~ valid_pigen_directory PiGenStages (host st) piGenDirectory).
    { intros Hvalid. apply Hiff in Hvalid. discriminate Hvalid. }
    split.
    + split; [intros (? & ? & H); discriminate H | intros Hvalid; contradiction].
    + intros r st' H. inversion H; subst. cbn [host trace].
      split; [intros _; eexists; reflexivity |]. split; [reflexivity |].
      exists logs. split; [reflexivity | exact Hlogs].
  - assert (Hinvalid : ~ valid_pigen_directory PiGenStages (host st) piGenDirectory).
    { intros Hvalid. apply Hiff in Hvalid. discriminate Hvalid. }
    split.
    + split; [intros (? & ? & H); discriminate H | intros Hvalid; contradiction].
    + intros r st' H. inversion H; subst. cbn [host trace].
      split; [intros _; eexists; reflexivity |]. split; [reflexivity |].
      exists logs. split; [reflexivity | exact Hlogs].
Qed.

(** *** The trace of a build *)

Lemma quiet_refl (st : State W) : quiet st st.
Proof. exists []. split; [rewrite app_nil_r; reflexivity | constructor]. Qed.

Lemma quiet_trans (st1 st2 st3 : State W) :
  quiet st1 st2 -> quiet st2 st3 -> quiet st1 st3.
Proof.
  intros (e1 & H1 & F1) (e2 & H2 & F2). exists (e1 ++ e2)%list. split.
  - rewrite H2, H1, app_assoc. reflexivity.
  - apply Forall_app. split; assumption.
Qed.

Lemma quiet_emit (ev : Event) (st : State W) :
  is_exec ev = false -> quiet st (snd (emit ev st)).
Proof.
  intros He. exists [ev]. split; [reflexivity |]. constructor; [exact He | constructor].
Qed.

Lemma bind_inv {A B : Type} (m : M W A) (f : A -> M W B) st r st' :
  bind m f st = (r, st') ->
  (exists e, m st = (Throw e, st') /\ r = Throw e) \/
  (exists a st1, m st = (Ok a, st1) /\ f a st1 = (r, st')).
Proof.
  unfold bind. destruct (m st) as [[a | e] st1]; intros H.
  - right. exists a, st1. split; [reflexivity | exact H].
  - left. inversion H; subst. exists e. split; reflexivity.
Qed.

Lemma writeToFile_quiet (config : PiGenConfig) (dir file : string) st r st' :
  writeToFile PiGenStages config dir file st = (r, st') -> quiet st st'.
Proof.
  unfold writeToFile. intros H.
  destruct (get config "stageList") as [stageList |] eqn:Hs.
  - assert (Hq : quiet st (Build_State (host st)
                             (trace st ++ [Log Debug (msg_resolving stageList dir)]))).
    { eexists. split; [reflexivity | repeat constructor]. }
    apply bind_inv in H. destruct H as [(e & Ha & _) | (c1 & st1 & Ha & H2)].
    + destruct (absolutize_inv _ _ _ _ _ _ _ Hs Ha) as [-> _]. exact Hq.
    + destruct (absolutize_inv _ _ _ _ _ _ _ Hs Ha) as [-> _].
      eapply quiet_trans; [exact Hq |].
      apply bind_inv in H2. unfold fs_writeFile in H2.
      destruct H2 as [(e3 & H & _) | ([] & st3 & Hw & H)].
      * destruct (host_writeFile _ file _); inversion H. apply quiet_refl.
      * inversion H; subst. clear H.
        destruct (host_writeFile _ file _); inversion Hw.
        eexists. split; [reflexivity |]. repeat constructor.
  - unfold absolutizePiGenStages, bind in H. rewrite Hs in H.
    inversion H. apply quiet_refl.
Qed.

Lemma export_events_quiet (h : W) (stageDirs : list string) :
  Forall (fun ev => is_exec ev = false)
    (flat_map (export_events PiGenStages h) stageDirs).
Proof.
  apply Forall_forall. intros ev Hin. apply in_flat_map in Hin.
  destruct Hin as (d & _ & Hin). unfold export_events in Hin.
  destruct (known_stage_dir PiGenStages d); [destruct Hin as [<- | []]; reflexivity |].
  destruct (host_exists h (export_marker d)); [destruct Hin |].
  destruct Hin as [<- | []]. reflexivity.
Qed.

Lemma configureStagesImageExport_quiet (this : PiGen) st r st' :
  configureStagesImageExport PiGenStages this st = (r, st') -> quiet st st'.
Proof.
  unfold configureStagesImageExport.
  destruct (get (config this) "stageList") as [stageList |]; intros H.
  - rewrite export_stages_run in H. inversion H; subst.
    eexists. split; [reflexivity | apply export_events_quiet].
  - inversion H. apply quiet_refl.
Qed.

Lemma realpath_all_state (dirs : list string) st r st' :
  realpath_all dirs st = (r, st') -> st' = st.
Proof.
  revert r st'. induction dirs as [| d rest IH]; cbn [realpath_all]; intros r st' H.
  - inversion H. reflexivity.
  - unfold bind, fs_realpath in H.
    destruct (host_realpath (host st) d); [| inversion H; reflexivity].
    destruct (realpath_all rest st) as [[ps | e] st1] eqn:Hr;
      rewrite (IH _ _ eq_refl) in H; inversion H; reflexivity.
Qed.

Lemma getStagesAsDockerMounts_state (this : PiGen) st r st' :
  getStagesAsDockerMounts this st = (r, st') -> st' = st.
Proof.
  unfold getStagesAsDockerMounts.
  destruct (get (config this) "stageList") as [stageList |]; intros H.
  - unfold bind in H.
    destruct (realpath_all (split_ws stageList) st) as [[ps | e] st1] eqn:Hr;
      rewrite (realpath_all_state _ _ _ _ Hr) in H; inversion H; reflexivity.
  - inversion H. reflexivity.
Qed.

(** *** The log filter *)

Lemma logOutput_verbose (stream : StreamName) (line : string) (this : PiGen)
  (st : State W) :
  logOutput true stream line this st = (this, surface stream line st).
Proof. reflexivity. Qed.

Lemma logOutput_pattern (stream : StreamName) (line : string) (this : PiGen)
  (st : State W) :
  logOutput false stream line this st
  = (set_lastIndex this
       (snd (log_pattern_test (piGenBuildLogPattern_lastIndex this) line)),
     if fst (log_pattern_test (piGenBuildLogPattern_lastIndex this) line)
     then surface stream line st else st).
Proof.
  unfold logOutput.
  destruct (log_pattern_test (piGenBuildLogPattern_lastIndex this) line) as [[|] li];
    reflexivity.
Qed.

Lemma logOutput_trace (verbose : bool) (stream : StreamName) (line : string)
  (this : PiGen) (st : State W) :
  host (snd (logOutput verbose stream line this st)) = host st /\
  exists logs,
    trace (snd (logOutput verbose stream line this st)) = (trace st ++ logs)%list /\
    Forall (fun ev => is_exec ev = false) logs.
Proof.
  destruct verbose.
  - rewrite logOutput_verbose. destruct stream; (split; [reflexivity |]);
      eexists; (split; [reflexivity | repeat constructor]).
  - rewrite logOutput_pattern. cbn [snd].
    destruct (fst (log_pattern_test _ line)).
    + destruct stream; (split; [reflexivity |]);
        eexists; (split; [reflexivity | repeat constructor]).
    + split; [reflexivity |]. exists []. split; [rewrite app_nil_r; reflexivity | constructor].
Qed.

Lemma deliver_logOutput_trace (verbose : bool) (lines : list OutputLine)
  (this : PiGen) (st : State W) :
  exists logs,
    trace (snd (deliver (logOutput verbose info) (logOutput verbose error) lines this st))
    = (trace st ++ logs)%list /\
    Forall (fun ev => is_exec ev = false) logs.
Proof.
  revert this st. induction lines as [| l rest IH]; intros this st; cbn [deliver].
  - exists []. split; [rewrite app_nil_r; reflexivity | constructor].
  - destruct l as [line | line].
    + destruct (logOutput_trace verbose info line this st) as [_ (l1 & H1 & F1)].
      destruct (logOutput verbose info line this st) as [this1 st1]. cbn [snd] in H1.
      destruct (IH this1 st1) as (l2 & H2 & F2).
      exists (l1 ++ l2)%list. split; [rewrite H2, H1, app_assoc; reflexivity |].
      apply Forall_app. split; assumption.
    + destruct (logOutput_trace verbose error line this st) as [_ (l1 & H1 & F1)].
      destruct (logOutput verbose error line this st) as [this1 st1]. cbn [snd] in H1.
      destruct (IH this1 st1) as (l2 & H2 & F2).
      exists (l1 ++ l2)%list. split; [rewrite H2, H1, app_assoc; reflexivity |].
      apply Forall_app. split; assumption.
Qed.

(** C5, amended.  [build] starts the build script at most once and passes
    on what [exec.getExecOutput] settles with: the call leaves
    [ignoreReturnCode] unset, so when the script exits with a code other than
    zero the promise is rejected with an error that carries the exit code,
    and [build] throws that error; a result object, with exit code 0 and the
    collected output, is returned only when the script exits with 0.  The
    invoker neither retries nor inspects the exit code. *)
Theorem build_settles_with_exec
  (this : PiGen) (verbose : bool) (st : State W)
  (r : Result (PiGen * ExecOutput)) (st' : State W) :
  build PiGenStages this verbose st = (r, st') ->
  build_outcome this st r st'.
Proof.
  unfold build, build_outcome. intros H.
  apply bind_inv in H. destruct H as [(e & Hm & _) | ([] & st1 & Hd & H)];
    [discriminate Hm |].
  assert (Q1 : quiet st st1).
  { inversion Hd; subst. apply (quiet_emit (Log Debug _) st). reflexivity. }
  clear Hd.
  apply bind_inv in H. destruct H as [(e & Hw & ->) | (config' & st2 & Hw & H)].
  { left. exists e. split; [reflexivity |].
    eapply quiet_trans; [exact Q1 | eapply writeToFile_quiet, Hw]. }
  assert (Q2 : quiet st st2).
  { eapply quiet_trans; [exact Q1 | eapply writeToFile_quiet, Hw]. }
  clear Q1 Hw.
  apply bind_inv in H. destruct H as [(e & Hc & ->) | ([] & st3 & Hc & H)].
  { left. exists e. split; [reflexivity |].
    eapply quiet_trans; [exact Q2 | eapply configureStagesImageExport_quiet, Hc]. }
  assert (Q3 : quiet st st3).
  { eapply quiet_trans; [exact Q2 | eapply configureStagesImageExport_quiet, Hc]. }
  clear Q2 Hc.
  apply bind_inv in H. destruct H as [(e & Hg & ->) | (dockerOpts & st4 & Hg & H)].
  { left. exists e. split; [reflexivity |].
    rewrite (getStagesAsDockerMounts_state _ _ _ _ Hg). exact Q3. }
  rewrite (getStagesAsDockerMounts_state _ _ _ _ Hg) in H. clear Hg st4.
  apply bind_inv in H. destruct H as [(e & Hm & _) | ([] & st5 & Hd & H)];
    [discriminate Hm |].
  assert (Q5 : quiet st st5).
  { eapply quiet_trans; [exact Q3 |].
    inversion Hd; subst. apply (quiet_emit (Log Debug _) st3). reflexivity. }
  clear Q3 Hd.
  right. cbn [configFilePath] in H.
  match type of H with
  | getExecOutput _ _ (build_options ?t ?d) _ _ _ _ = _ =>
      exists t, d, st5
  end.
  unfold getExecOutput in H.
  destruct (host_spawn (host st5) build_command _ _) as [run h'] eqn:Hspawn.
  exists run, h'.
  destruct run as [pr |].
  - match type of H with
    | context [deliver ?l1 ?l2 ?ls ?t ?s] =>
        destruct (deliver_logOutput_trace verbose ls t s) as (logs & Ht & Hl);
        destruct (deliver l1 l2 ls t s) as [this' st6]
    end.
    cbn [snd trace] in Ht. exists logs.
    cbn [ignoreReturnCode build_options negb] in H. rewrite andb_true_r in H.
    split; [exact Q5 |]. split; [reflexivity |]. split; [reflexivity |].
    destruct (pr_exitCode pr =? 0)%Z eqn:Hz; cbn [negb] in H; inversion H; subst;
      (split; [rewrite Ht, <- app_assoc; reflexivity |]); (split; [exact Hl |]).
    + exists this'. unfold output_of. reflexivity.
    + reflexivity.
  - exists []. inversion H; subst.
    split; [exact Q5 |]. split; [reflexivity |]. split; [reflexivity |].
    split; [reflexivity |]. split; [constructor | reflexivity].
Qed.

End InvokerFacts.

(** ** The pattern of the log filter *)

Lemma log_pattern_at_inside (c : ascii) (s : string) :
  isLineTerminator c = false -> log_pattern_at (Some c) s = None.
Proof. intros Hc. unfold log_pattern_at. rewrite Hc. reflexivity. Qed.

Lemma log_pattern_search_inside (c : ascii) (s : string) (pos : nat) :
  isLineTerminator c = false -> single_line s = true ->
  log_pattern_search (Some c) s pos = None.
Proof.
  revert c pos. induction s as [| d s IH]; intros c pos Hc Hs;
    cbn [log_pattern_search]; rewrite (log_pattern_at_inside c _ Hc).
  - reflexivity.
  - cbn [single_line] in Hs. apply andb_true_iff in Hs. destruct Hs as [Hd Hs].
    apply IH; [apply negb_true_iff, Hd | exact Hs].
Qed.

Lemma suffix_at_inside (prev : option ascii) (s : string) (i : nat) p s' :
  match prev with Some c => isLineTerminator c = false | None => 0 < i end ->
  single_line s = true ->
  suffix_at prev s i = Some (p, s') ->
  (exists c, p = Some c /\ isLineTerminator c = false) /\ single_line s' = true.
Proof.
  revert prev s. induction i as [| i IH]; intros prev s Hp Hs H; cbn [suffix_at] in H.
  - inversion H; subst. destruct p as [c |]; [| cbn in Hp; lia].
    split; [exists c; split; [reflexivity | exact Hp] | exact Hs].
  - destruct s as [| d s]; [discriminate H |].
    cbn [single_line] in Hs. apply andb_true_iff in Hs. destruct Hs as [Hd Hs].
    apply (IH (Some d) s); [apply negb_true_iff, Hd | exact Hs | exact H].
Qed.

(** Once [lastIndex] is not zero, the pattern, anchored at a line start,
    matches nothing in a line delivered afterwards. *)
Lemma log_pattern_test_after_match (lastIndex : nat) (line : string) :
  0 < lastIndex -> single_line line = true ->
  log_pattern_test lastIndex line = (false, 0).
Proof.
  intros Hi Hl. unfold log_pattern_test.
  destruct (suffix_at None line lastIndex) as [[p s] |] eqn:Hs; [| reflexivity].
  destruct (suffix_at_inside None line lastIndex p s Hi Hl Hs) as [(c & -> & Hc) Hs'].
  rewrite (log_pattern_search_inside c s lastIndex Hc Hs'). reflexivity.
Qed.

Lemma log_pattern_at_positive (prev : option ascii) (s : string) (n : nat) :
  log_pattern_at prev s = Some n -> 0 < n.
Proof.
  unfold log_pattern_at.
  destruct (match prev with None => true | Some p => isLineTerminator p end);
    [| discriminate].
  destruct (skip_spaces s) as [n0 s0].
  destruct s0 as [| c s1]; [discriminate |].
  destruct (Ascii.eqb_spec c "["%char) as [-> | Hne].
  - destruct (two_digits_colon s1) as [[n1 s2] |]; [| discriminate].
    destruct (two_digits_colon s2) as [[n2 s3] |]; [| discriminate].
    destruct (two_digits_colon s3) as [[n3 s4] |]; [| discriminate].
    destruct s4 as [| d s4]; [discriminate |].
    destruct (Ascii.eqb_spec d "]"%char) as [-> | Hd].
    + intros H. inversion H. lia.
    + destruct d as [[] [] [] [] [] [] [] []]; try discriminate; congruence.
  - destruct c as [[] [] [] [] [] [] [] []]; try discriminate; congruence.
Qed.

Lemma log_pattern_search_positive (prev : option ascii) (s : string) (pos e : nat) :
  log_pattern_search prev s pos = Some e -> 0 < e.
Proof.
  revert prev pos. induction s as [| c s IH]; intros prev pos;
    cbn [log_pattern_search];
    destruct (log_pattern_at prev _) as [n |] eqn:Hat.
  - intros H. inversion H. apply log_pattern_at_positive in Hat. lia.
  - discriminate.
  - intros H. inversion H. apply log_pattern_at_positive in Hat. lia.
  - apply IH.
Qed.

Lemma log_pattern_test_positive (lastIndex : nat) (line : string) (e : nat) :
  log_pattern_test lastIndex line = (true, e) -> 0 < e.
Proof.
  unfold log_pattern_test.
  destruct (suffix_at None line lastIndex) as [[p s] |]; [| discriminate].
  destruct (log_pattern_search p s lastIndex) as [e' |] eqn:Hs; [| discriminate].
  intros H. inversion H; subst. eapply log_pattern_search_positive, Hs.
Qed.

(** After a line that the filter let through, the next line is suppressed
    whatever it is. *)
Lemma logOutput_after_match {W : Type} {HW : Host W}
  (stream1 stream2 : StreamName) (line1 line2 : string) (this : PiGen) (st : State W) :
  fst (log_pattern_test (piGenBuildLogPattern_lastIndex this) line1) = true ->
  single_line line2 = true ->
  snd (logOutput false stream2 line2
         (fst (logOutput false stream1 line1 this st))
         (snd (logOutput false stream1 line1 this st)))
  = surface stream1 line1 st.
Proof.
  intros Hm Hl. rewrite (logOutput_pattern stream1 line1 this st). cbn [fst snd].
  rewrite Hm. rewrite logOutput_pattern. cbn [snd piGenBuildLogPattern_lastIndex set_lastIndex].
  destruct (log_pattern_test (piGenBuildLogPattern_lastIndex this) line1) as [m e] eqn:Ht.
  cbn [fst snd] in *. subst m.
  rewrite (log_pattern_test_after_match e line2);
    [reflexivity | eapply log_pattern_test_positive, Ht | exact Hl].
Qed.

(** C4, at the failing input.  Two lines that both start with the
    bracketed timestamp arrive on stdout with the verbose flag unset: the
    first is surfaced on the info channel, the second is suppressed although
    it matches the pattern, because the pattern object is global and its
    [lastIndex] is left after the first match. *)
Theorem logOutput_suppresses_second_timestamped_line :
  let this0 := the_pigen scenario_config in
  let st0 := start (pi_host timestamped_run) in
  let line1 := "[00:00:01] Begin stage0" in
  let line2 := "[00:00:02] End stage0" in
  let r1 := logOutput false info line1 this0 st0 in
  let r2 := logOutput false info line2 (fst r1) (snd r1) in
  fst (log_pattern_test 0 line1) = true /\
  fst (log_pattern_test 0 line2) = true /\
  trace (snd r1) = [Log Info line1] /\
  piGenBuildLogPattern_lastIndex (fst r1) = 23 /\
  trace (snd r2) = [Log Info line1] /\
  filter is_info
    (trace (snd (build PiGenStages_values this0 false st0)))
  = [Log Info line1].
Proof. vm_compute. repeat split. Qed.

(** ** Examples for the build invoker *)

(** C5 as stated fails: the build script exits with code 1 and [build]
    throws; no result object is returned. *)
Lemma build_throws_on_exit_code :
  pr_exitCode failing_run = 1%Z /\
  fst (build PiGenStages_values (the_pigen scenario_config) false
         (start (pi_host failing_run)))
  = Throw (ExecExitError build_command 1).
Proof. vm_compute. split; reflexivity. Qed.

Lemma build_settles_with_exec_witness :
  build_outcome (the_pigen scenario_config) (start (pi_host failing_run))
    (fst (build PiGenStages_values (the_pigen scenario_config) false
            (start (pi_host failing_run))))
    (snd (build PiGenStages_values (the_pigen scenario_config) false
            (start (pi_host failing_run)))).
Proof.
  apply (build_settles_with_exec PiGenStages_values (the_pigen scenario_config) false
           (start (pi_host failing_run))).
  vm_compute. reflexivity.
Defined.

Example build_returns_result_on_exit_code_0 :
  match fst (build PiGenStages_values (the_pigen scenario_config) false
               (start (pi_host timestamped_run))) with
  | Ok (_, out) => out = output_of timestamped_run
  | Throw _ => False
  end.
Proof. vm_compute. reflexivity. Qed.

Lemma PiGen_new_requires_valid_directory_witness :
  valid_pigen_directory PiGenStages_values (pi_host quiet_run) "/pi-gen" /\
  (valid_pigen_directory PiGenStages_values broken_host "/pi-gen" -> False).
Proof.
  assert (H1 : host_stat (host (start (pi_host quiet_run))) "/pi-gen" <> None ->
               host_realpath (host (start (pi_host quiet_run))) "/pi-gen" <> None).
  { intros _ H. vm_compute in H. discriminate H. }
  assert (H2 : host_stat (host (start broken_host)) "/pi-gen" <> None ->
               host_realpath (host (start broken_host)) "/pi-gen" <> None).
  { intros _ H. vm_compute in H. discriminate H. }
  split.
  - apply (proj1 (PiGen_new_requires_valid_directory PiGenStages_values "/pi-gen"
                    scenario_config (start (pi_host quiet_run)) H1)).
    eexists. eexists. reflexivity.
  - intros Hv.
    apply (proj1 (PiGen_new_requires_valid_directory PiGenStages_values "/pi-gen"
                    scenario_config (start broken_host) H2)) in Hv.
    destruct Hv as (this & st' & H). vm_compute in H. discriminate H.
Defined.

Lemma configureStagesImageExport_effects_witness :
  exists events,
    configureStagesImageExport PiGenStages_values
      (the_pigen (set scenario_config "stageList" "/pi-gen/stage0 /work/custom-stage"))
      (start (pi_host quiet_run))
    = (Ok tt, Build_State (pi_host quiet_run) events) /\
    In (RmRF "/pi-gen/stage0/EXPORT_IMAGE") events /\
    In (Log Warning (msg_custom_stage "/work/custom-stage")) events /\
    ~ In (RmRF "/work/custom-stage/EXPORT_IMAGE") events.
Proof.
  destruct (configureStagesImageExport_effects PiGenStages_values
              (the_pigen (set scenario_config "stageList" "/pi-gen/stage0 /work/custom-stage"))
              "/pi-gen/stage0 /work/custom-stage"
              (start (pi_host quiet_run)) eq_refl)
    as (events & Hrun & Hall & _).
  exists events. split; [exact Hrun |].
  pose proof (Hall "/pi-gen/stage0" (or_introl eq_refl)) as H0.
  pose proof (Hall "/work/custom-stage" (or_intror (or_introl eq_refl))) as H1.
  split; [exact H0 |]. destruct H1 as [Hw Hn].
  split; [exact (Hw eq_refl) | exact Hn].
Defined.

(** * Further properties *)

(** ** validateConfig, check by check *)

Lemma split_nonempty (sep : ascii) (s : string) : split sep s <> [].
Proof.
  destruct s as [| c s]; simpl; [discriminate |].
  destruct (Ascii.eqb c sep); [discriminate |].
  destruct (split sep s); discriminate.
Qed.


Lemma join_split (sep : ascii) (s : string) :
  join (String sep EmptyString) (split sep s) = s.
Proof.
  induction s as [| c s IH]; cbn [split].
  - reflexivity.
  - destruct (Ascii.eqb_spec c sep) as [-> | Hne].
    + cbn [join]. destruct (split sep s) as [| t ts] eqn:E.
      * exfalso. exact (split_nonempty sep s E).
      * rewrite IH. reflexivity.
    + destruct (split sep s) as [| t ts] eqn:E.
      * exfalso. exact (split_nonempty sep s E).
      * cbn [join] in *. destruct ts as [| t' ts'].
        -- rewrite IH. reflexivity.
        -- rewrite <- IH. reflexivity.
Qed.


Section ValidateSteps.

Context {W : Type} {HW : Host W}.
Variable PiGenStages : list string.

Lemma check_inv (c : bool) (e0 : Error) (st : State W) r st' :
  (if c then throw e0 else ret tt) st = (r, st') ->
  st' = st /\ ((c = true /\ r = Throw e0) \/ (c = false /\ r = Ok tt)).
Proof.
  destruct c; intros H; inversion H; subst; split; try reflexivity.
  - left. split; reflexivity.
  - right. split; reflexivity.
Qed.

Lemma deliver_no_listener (lines : list OutputLine) (st : State W) :
  deliver no_listener no_listener lines tt st = (tt, st).
Proof.
  induction lines as [| [l | l] rest IH]; cbn [deliver]; [reflexivity | |];
    unfold no_listener at 1; exact IH.
Qed.

Lemma getExecOutput_silent_inv (cmd : string) (args : list string) (st : State W) r st' :
  getExecOutput cmd args silent_options no_listener no_listener tt st = (r, st') ->
  exists run h',
    host_spawn (host st) cmd args silent_options = (run, h') /\
    st' = Build_State h' (trace st ++ [Exec cmd args silent_options]) /\
    match run with
    | None => r = Throw (ExecStartError cmd)
    | Some pr =>
        if (pr_exitCode pr =? 0)%Z then r = Ok (tt, output_of pr)
        else r = Throw (ExecExitError cmd (pr_exitCode pr))
    end.
Proof.
  unfold getExecOutput.
  destruct (host_spawn (host st) cmd args silent_options) as [run h'].
  intros H. exists run, h'. split; [reflexivity |].
  destruct run as [pr |].
  - rewrite deliver_no_listener in H. cbn [ignoreReturnCode silent_options negb] in H.
    rewrite andb_true_r in H.
    destruct (pr_exitCode pr =? 0)%Z; cbn [negb] in H; inversion H; subst;
      split; reflexivity.
  - inversion H; subst. split; reflexivity.
Qed.

Lemma io_which_inv (tool : string) (st : State W) r st' :
  io_which tool st = (r, st') ->
  st' = st /\
  match host_which (host st) tool with
  | Some p => r = Ok p
  | None => r = Throw (WhichError tool)
  end.
Proof.
  unfold io_which. destruct (host_which (host st) tool); intros H; inversion H;
    split; reflexivity.
Qed.

Lemma validate_stages_inv (stageDirs : list string) (st : State W) r st' :
  validate_stages PiGenStages stageDirs st = (r, st') ->
  st' = st /\
  match r with
  | Ok _ =>
      Forall (fun d => includes PiGenStages d = true \/ host_stat (host st) d <> None)
        stageDirs
  | Throw e =>
      e = JsError msg_stage_list /\
      exists tok, In tok stageDirs /\ includes PiGenStages tok = false /\
                  host_stat (host st) tok = None
  end.
Proof.
  revert r st'. induction stageDirs as [| d rest IH]; cbn [validate_stages]; intros r st' H.
  - inversion H. split; [reflexivity | constructor].
  - unfold bind in H.
    destruct (includes PiGenStages d) eqn:Hk.
    + rewrite (validate_stage_known _ _ _ Hk) in H.
      destruct (IH _ _ H) as [-> Hr]. split; [reflexivity |].
      destruct r as [u | e].
      * constructor; [left; exact Hk | exact Hr].
      * destruct Hr as (-> & tok & Hin & Ht). split; [reflexivity |].
        exists tok. split; [right; exact Hin | exact Ht].
    + destruct (host_stat (host st) d) as [s |] eqn:Hs.
      * rewrite (validate_stage_existing _ _ _ _ Hs) in H.
        destruct (IH _ _ H) as [-> Hr]. split; [reflexivity |].
        destruct r as [u | e].
        -- constructor; [right; congruence | exact Hr].
        -- destruct Hr as (-> & tok & Hin & Ht). split; [reflexivity |].
           exists tok. split; [right; exact Hin | exact Ht].
      * rewrite (validate_stage_missing _ _ _ Hk Hs) in H. inversion H; subst.
        split; [reflexivity |]. split; [reflexivity |].
        exists d. split; [left; reflexivity | split; assumption].
Qed.

End ValidateSteps.

Ltac other_msg :=
  let E := fresh "E" in
  intros E; first
    [ discriminate E
    | injection E as E; vm_compute in E; discriminate E ].

(** One check of [validateConfig]: [thrown] closes the case in which it
    throws. *)
Ltac vc_check H thrown :=
  let e := fresh "e" in
  let Hm := fresh "Hm" in
  let Hr := fresh "Hr" in
  let Hc := fresh "Hc" in
  let He := fresh "He" in
  let s := fresh "s" in
  let Hs := fresh "Hs" in
  apply bind_inv in H;
  destruct H as [(e & Hm & Hr) | ([] & s & Hm & H)];
  [ apply check_inv in Hm; destruct Hm as [Hs [[Hc He] | [Hc He]]];
    [| discriminate He]; injection He as He;
    try discriminate Hr; try (injection Hr as Hr); subst; thrown
  | apply check_inv in Hm; destruct Hm as [Hs [[Hc He] | [Hc _]]];
    [discriminate He |]; subst s ].

Ltac vc_which H thrown :=
  let e := fresh "e" in
  let Hm := fresh "Hm" in
  let Hr := fresh "Hr" in
  let cutCmd := fresh "cutCmd" in
  let s := fresh "s" in
  let Hs := fresh "Hs" in
  let Hw := fresh "Hw" in
  apply bind_inv in H;
  destruct H as [(e & Hm & Hr) | (cutCmd & s & Hm & H)];
  [ apply io_which_inv in Hm; destruct Hm as [Hs Hm];
    destruct (host_which _ "cut") eqn:Hw; [discriminate Hm |];
    injection Hm as Hm;
    try discriminate Hr; try (injection Hr as Hr); subst; thrown
  | apply io_which_inv in Hm; destruct Hm as [Hs Hm];
    destruct (host_which _ "cut") eqn:Hw; [| discriminate Hm];
    injection Hm as Hm; subst ].

Ltac vc_exec H thrown :=
  let e := fresh "e" in
  let Hm := fresh "Hm" in
  let Hr := fresh "Hr" in
  let out := fresh "out" in
  let s := fresh "s" in
  let run := fresh "run" in
  let h := fresh "h" in
  let Hsp := fresh "Hsp" in
  let Hs := fresh "Hs" in
  let Hz := fresh "Hz" in
  let pr := fresh "pr" in
  apply bind_inv in H;
  destruct H as [(e & Hm & Hr) | (out & s & Hm & H)];
  [ apply getExecOutput_silent_inv in Hm;
    destruct Hm as (run & h & Hsp & Hs & Hm);
    destruct run as [pr |];
    [ destruct (pr_exitCode pr =? 0)%Z eqn:Hz; [discriminate Hm |] |];
    injection Hm as Hm;
    try discriminate Hr; try (injection Hr as Hr); subst; thrown
  | apply getExecOutput_silent_inv in Hm;
    destruct Hm as (run & h & Hsp & Hs & Hm);
    destruct run as [pr |]; [| discriminate Hm];
    destruct (pr_exitCode pr =? 0)%Z eqn:Hz; [| discriminate Hm];
    injection Hm as Hm; subst ].

Ltac x1_thrown :=
  repeat split;
  first [ other_msg
        | intros _; first [ assumption | apply negb_true_iff; assumption ] ].

Ltac x4_early :=
  let Hearly := fresh "Hearly" in
  intros Hearly; first
    [ reflexivity
    | exfalso; destruct Hearly as [Hearly | Hearly];
      [ match goal with
        | Hn : negb (test_single_digit _) = false |- _ =>
            apply negb_false_iff in Hn; congruence
        end
      | apply Hearly; repeat split; apply negb_false_iff; assumption ] ].

Ltac x4_shape :=
  cbn [host trace]; rewrite <- ?app_assoc; cbn [app]; first
    [ left; split; reflexivity
    | right; eexists _, _, _; split; [first [eassumption | reflexivity] |];
      split; [eassumption |];
      first [ left; split; reflexivity
            | right; eexists _, _; split; [eassumption |]; split; reflexivity ] ].

Ltac x4_thrown := split; [x4_shape | x4_early].


Section ValidateConfigMore.

Context {W : Type} {HW : Host W}.
Variable PiGenStages : list string.

(** X1.  An error of [validateConfig] that names a field is raised only when
    the check of that field fails: an empty or absent value for image name,
    hostname, keyboard keymap, keyboard layout, user name and stage list, a
    release or compression outside the supported ones, and for the stage
    list a token that is neither a known stage nor found by [stat]. *)
Theorem validateConfig_message_names_failed_check
  (config : PiGenConfig) (st st' : State W) (e : Error) :
  validateConfig PiGenStages config st = (Throw e, st') ->
  (e = JsError msg_image_name -> truthy (get config "imgName") = false) /\
  (e = JsError msg_release ->
   includes_value supported_releases
     (option_map toLowerCase (get config "release")) = false) /\
  (e = JsError msg_compression ->
   includes_value supported_compressions
     (option_map toLowerCase (get config "deployCompression")) = false) /\
  (e = JsError msg_hostname -> truthy (get config "targetHostname") = false) /\
  (e = JsError msg_keyboard_keymap -> truthy (get config "keyboardKeymap") = false) /\
  (e = JsError msg_keyboard_layout -> truthy (get config "keyboardLayout") = false) /\
  (e = JsError msg_username -> truthy (get config "firstUserName") = false) /\
  (e = JsError msg_stage_list_empty -> truthy (get config "stageList") = false) /\
  (e = JsError msg_stage_list ->
   exists stageList tok,
     get config "stageList" = Some stageList /\ In tok (split " " stageList) /\
     includes PiGenStages tok = false /\ host_stat (host st') tok = None).
Proof.
  unfold validateConfig. intros H.
  do 4 (vc_check H x1_thrown).
  vc_which H x1_thrown.
  vc_exec H x1_thrown.
  do 4 (vc_check H x1_thrown).
  vc_exec H x1_thrown.
  do 4 (vc_check H x1_thrown).
  destruct (get config "stageList") as [stageList |] eqn:Hsl.
  - apply validate_stages_inv in H. destruct H as [-> (-> & tok & Hin & Hk & Hst)].
    repeat split; try other_msg.
    intros _. exists stageList, tok. repeat split; assumption.
  - inversion H; subst. x1_thrown.
Qed.

(** X2.  A configuration that [validateConfig] accepts satisfies every
    check: the six mandatory texts are not empty, release and compression
    are supported ones, the compression level is one digit, the Wi-Fi
    password passes its test, the stage list is not empty and each of its
    tokens is a known stage or is found by [stat]; the locale is a line of
    the listing printed by [cut], the timezone a line of the listing printed
    by [timedatectl], and both listings ended with exit code 0. *)
Theorem validateConfig_accepted_is_valid
  (config : PiGenConfig) (st st' : State W) :
  validateConfig PiGenStages config st = (Ok tt, st') ->
  (truthy (get config "imgName") = true /\
   truthy (get config "targetHostname") = true /\
   truthy (get config "keyboardKeymap") = true /\
   truthy (get config "keyboardLayout") = true /\
   truthy (get config "firstUserName") = true /\
   truthy (get config "stageList") = true) /\
  (includes_value supported_releases
     (option_map toLowerCase (get config "release")) = true /\
   includes_value supported_compressions
     (option_map toLowerCase (get config "deployCompression")) = true /\
   test_single_digit (to_string (get config "compressionLevel")) = true /\
   wpaPassword_rejected (get config "wpaPassword") = false) /\
  (exists stageList,
     get config "stageList" = Some stageList /\
     Forall (fun tok => includes PiGenStages tok = true \/ host_stat (host st') tok <> None)
       (split " " stageList)) /\
  (exists cutCmd locales h1 timezones,
     host_which (host st) "cut" = Some cutCmd /\
     host_spawn (host st) cutCmd locale_args silent_options = (Some locales, h1) /\
     pr_exitCode locales = 0%Z /\
     includes_value (split "010" (collect_stdout (pr_output locales)))
       (get config "localeDefault") = true /\
     host_spawn h1 "timedatectl" timezone_args silent_options
     = (Some timezones, host st') /\
     pr_exitCode timezones = 0%Z /\
     includes_value (split "010" (collect_stdout (pr_output timezones)))
       (get config "timezoneDefault") = true).
Proof.
  unfold validateConfig. intros H.
  do 4 (vc_check H idtac).
  vc_which H idtac.
  vc_exec H idtac.
  do 4 (vc_check H idtac).
  vc_exec H idtac.
  do 4 (vc_check H idtac).
  destruct (get config "stageList") as [stageList |] eqn:Hsl; [| discriminate H].
  apply validate_stages_inv in H. destruct H as [-> HF].
  cbn [host trace] in *.
  repeat match goal with
         | Hn : negb _ = false |- _ => apply negb_false_iff in Hn
         end.
  split; [repeat split; assumption |].
  split; [repeat split; assumption |].
  split; [exists stageList; split; [reflexivity | exact HF] |].
  apply Z.eqb_eq in Hz, Hz0.
  eexists _, _, _, _. repeat split; eassumption.
Qed.

(** X3.  [validateConfig] starts at most two processes, the locale listing
    and then the timezone listing, each without [ignoreReturnCode]; it writes
    no file, requests no removal and logs nothing.  When one of the first
    four checks (image name, release, compression, compression level) fails,
    it leaves the state as it was: no process is started. *)
Theorem validateConfig_effects
  (config : PiGenConfig) (st : State W) r (st' : State W) :
  validateConfig PiGenStages config st = (r, st') ->
  ((trace st' = trace st /\ host st' = host st) \/
   (exists cutCmd run1 h1,
      host_which (host st) "cut" = Some cutCmd /\
      host_spawn (host st) cutCmd locale_args silent_options = (run1, h1) /\
      ((trace st' = (trace st ++ [Exec cutCmd locale_args silent_options])%list /\
        host st' = h1) \/
       (exists run2 h2,
          host_spawn h1 "timedatectl" timezone_args silent_options = (run2, h2) /\
          trace st' = (trace st ++ [Exec cutCmd locale_args silent_options;
                                    Exec "timedatectl" timezone_args silent_options])%list /\
          host st' = h2)))) /\
  (test_single_digit (to_string (get config "compressionLevel")) = false \/
   ~ passes_until_compressionLevel config ->
   st' = st).
Proof.
  unfold validateConfig. intros H.
  do 4 (vc_check H x4_thrown).
  vc_which H x4_thrown.
  vc_exec H x4_thrown.
  do 4 (vc_check H x4_thrown).
  vc_exec H x4_thrown.
  do 4 (vc_check H x4_thrown).
  destruct (get config "stageList") as [stageList |] eqn:Hsl.
  - apply validate_stages_inv in H. destruct H as [-> _]. x4_thrown.
  - inversion H; subst. x4_thrown.
Qed.

Lemma get_release_compression (config : PiGenConfig) (r c k : string) :
  k <> "release" -> k <> "deployCompression" ->
  get (set (set config "release" r) "deployCompression" c) k = get config k.
Proof.
  intros H1 H2. rewrite get_set_other by exact H2. apply get_set_other, H1.
Qed.

(** X4.  The checks of release and compression do not look at the case of
    the letters: two configurations that differ only in release and
    compression, and there only by case, are validated alike. *)
Theorem validateConfig_case_insensitive
  (config : PiGenConfig) (r1 r2 c1 c2 : string) (st : State W) :
  toLowerCase r1 = toLowerCase r2 ->
  toLowerCase c1 = toLowerCase c2 ->
  validateConfig PiGenStages (set (set config "release" r1) "deployCompression" c1) st
  = validateConfig PiGenStages (set (set config "release" r2) "deployCompression" c2) st.
Proof.
  intros Hr Hc. unfold validateConfig.
  rewrite !(get_release_compression config r1 c1 "imgName"),
    !(get_release_compression config r1 c1 "compressionLevel"),
    !(get_release_compression config r1 c1 "localeDefault"),
    !(get_release_compression config r1 c1 "targetHostname"),
    !(get_release_compression config r1 c1 "keyboardKeymap"),
    !(get_release_compression config r1 c1 "keyboardLayout"),
    !(get_release_compression config r1 c1 "timezoneDefault"),
    !(get_release_compression config r1 c1 "firstUserName"),
    !(get_release_compression config r1 c1 "wpaPassword"),
    !(get_release_compression config r1 c1 "stageList") by discriminate.
  rewrite !(get_release_compression config r2 c2 "imgName"),
    !(get_release_compression config r2 c2 "compressionLevel"),
    !(get_release_compression config r2 c2 "localeDefault"),
    !(get_release_compression config r2 c2 "targetHostname"),
    !(get_release_compression config r2 c2 "keyboardKeymap"),
    !(get_release_compression config r2 c2 "keyboardLayout"),
    !(get_release_compression config r2 c2 "timezoneDefault"),
    !(get_release_compression config r2 c2 "firstUserName"),
    !(get_release_compression config r2 c2 "wpaPassword"),
    !(get_release_compression config r2 c2 "stageList") by discriminate.
  rewrite !get_set_same.
  rewrite !(get_set_other _ "deployCompression" _ "release") by discriminate.
  rewrite !get_set_same. cbn [option_map]. rewrite Hr, Hc. reflexivity.
Qed.

(** X5.  With the first four checks passed, a failure of the locale
    listing is the error of [validateConfig]: when [cut] is not found no
    process is started and the lookup error is thrown; when the listing does
    not start or exits with a code other than zero, the error of
    [exec.getExecOutput] is thrown and the timezone listing is not run. *)
Theorem validateConfig_locale_listing_failure (config : PiGenConfig) (st : State W) :
  passes_until_compressionLevel config ->
  test_single_digit (to_string (get config "compressionLevel")) = true ->
  (host_which (host st) "cut" = None ->
   validateConfig PiGenStages config st = (Throw (WhichError "cut"), st)) /\
  (forall cutCmd h1,
     host_which (host st) "cut" = Some cutCmd ->
     host_spawn (host st) cutCmd locale_args silent_options = (None, h1) ->
     validateConfig PiGenStages config st
     = (Throw (ExecStartError cutCmd),
        Build_State h1 (trace st ++ [Exec cutCmd locale_args silent_options]))) /\
  (forall cutCmd pr h1,
     host_which (host st) "cut" = Some cutCmd ->
     host_spawn (host st) cutCmd locale_args silent_options = (Some pr, h1) ->
     pr_exitCode pr <> 0%Z ->
     validateConfig PiGenStages config st
     = (Throw (ExecExitError cutCmd (pr_exitCode pr)),
        Build_State h1 (trace st ++ [Exec cutCmd locale_args silent_options]))).
Proof.
  intros (H1 & H2 & H3) H4. unfold validateConfig.
  rewrite bind_check, H1. cbn [negb].
  rewrite bind_check, H2. cbn [negb].
  rewrite bind_check, H3. cbn [negb].
  rewrite bind_check, H4. cbn [negb].
  split; [| split].
  - intros Hw. unfold bind at 1. unfold io_which. rewrite Hw. reflexivity.
  - intros cutCmd h1 Hw Hsp. unfold bind at 1. unfold io_which. rewrite Hw.
    unfold bind at 1. unfold getExecOutput. fold locale_args. rewrite Hsp. reflexivity.
  - intros cutCmd pr h1 Hw Hsp Hz. unfold bind at 1. unfold io_which. rewrite Hw.
    unfold bind at 1. unfold getExecOutput. fold locale_args. rewrite Hsp.
    rewrite deliver_no_listener.
    apply Z.eqb_neq in Hz. rewrite Hz. reflexivity.
Qed.


End ValidateConfigMore.

Lemma validateConfig_message_names_failed_check_witness :
  truthy (get (set scenario_config "targetHostname" EmptyString) "targetHostname") = false.
Proof.
  assert (H : validateConfig PiGenStages_values
                (set scenario_config "targetHostname" EmptyString)
                (start (pi_host quiet_run))
              = (Throw (JsError msg_hostname),
                 snd (validateConfig PiGenStages_values
                        (set scenario_config "targetHostname" EmptyString)
                        (start (pi_host quiet_run)))))
    by (vm_compute; reflexivity).
  destruct (validateConfig_message_names_failed_check _ _ _ _ _ H)
    as (_ & _ & _ & Hh & _).
  exact (Hh eq_refl).
Defined.

Lemma validateConfig_accepted_is_valid_witness :
  exists stageList,
    get scenario_config "stageList" = Some stageList /\
    Forall (fun tok =>
              includes PiGenStages_values tok = true \/
              host_stat (pi_host quiet_run) tok <> None)
      (split " " stageList).
Proof.
  assert (H : validateConfig PiGenStages_values scenario_config (start (pi_host quiet_run))
              = (Ok tt,
                 snd (validateConfig PiGenStages_values scenario_config
                        (start (pi_host quiet_run)))))
    by (vm_compute; reflexivity).
  destruct (validateConfig_accepted_is_valid _ _ _ _ H) as (_ & _ & Hs & _).
  exact Hs.
Defined.

Lemma validateConfig_effects_witness :
  snd (validateConfig PiGenStages_values (set scenario_config "compressionLevel" "10")
         (start (pi_host quiet_run)))
  = start (pi_host quiet_run).
Proof.
  apply (proj2 (validateConfig_effects PiGenStages_values
                  (set scenario_config "compressionLevel" "10")
                  (start (pi_host quiet_run)) _ _
                  (surjective_pairing _))).
  left. reflexivity.
Defined.

Lemma validateConfig_case_insensitive_witness :
  validateConfig PiGenStages_values
    (set (set scenario_config "release" "Bullseye") "deployCompression" "ZIP")
    (start (pi_host quiet_run))
  = validateConfig PiGenStages_values
      (set (set scenario_config "release" "bullseye") "deployCompression" "zip")
      (start (pi_host quiet_run)).
Proof.
  apply validateConfig_case_insensitive; reflexivity.
Defined.

Example validateConfig_release_examples :
  map (fun release =>
         fst (validateConfig PiGenStages_values (set scenario_config "release" release)
                (start (pi_host quiet_run))))
    ["Bullseye"; "BUSTER"; "trixie"]
  = [Ok tt; Ok tt; Throw (JsError msg_release)].
Proof. vm_compute. reflexivity. Qed.

Lemma validateConfig_locale_listing_failure_witness :
  validateConfig PiGenStages_values scenario_config (start no_locale_host)
  = (Throw (ExecExitError "/usr/bin/cut" 2),
     Build_State no_locale_host [Exec "/usr/bin/cut" locale_args silent_options]).
Proof.
  assert (Hp : passes_until_compressionLevel scenario_config)
    by (unfold passes_until_compressionLevel; repeat split).
  destruct (validateConfig_locale_listing_failure PiGenStages_values scenario_config
              (start no_locale_host) Hp eq_refl) as (_ & _ & H).
  apply (H "/usr/bin/cut"
           {| pr_output := [Errline "cut: No such file"]; pr_exitCode := 2 |}
           no_locale_host eq_refl eq_refl).
  discriminate.
Defined.


Example validateConfig_accepts_empty_locale_and_timezone :
  fst (validateConfig PiGenStages_values
         (set (set scenario_config "localeDefault" EmptyString)
            "timezoneDefault" EmptyString)
         (start (pi_host quiet_run)))
  = Ok tt.
Proof. vm_compute. reflexivity. Qed.

(** ** Keys of the config file *)






(** X8.  The underscore is put before every uppercase letter, the first
    one included: a label that starts with an uppercase letter gets a key
    that starts with an underscore, and only for the other labels is the key
    the one with underscores before the internal uppercase letters. *)
Theorem camelCaseToSnakeCase_leading_uppercase (c : ascii) (rest : string) :
  camelCaseToSnakeCase (String c rest)
  = if isUpper c then String "_" (spec_key (String c rest))
    else spec_key (String c rest).
Proof.
  unfold camelCaseToSnakeCase, spec_key, toUpperCase.
  cbn [replace_upper_with_underscore]. destruct (isUpper c); reflexivity.
Qed.

Example camelCaseToSnakeCase_examples :
  map camelCaseToSnakeCase ["firstUserName"; "useQcow2"; "ImgName"; "wpaESSID"]
  = ["FIRST_USER_NAME"; "USE_QCOW2"; "_IMG_NAME"; "WPA_E_S_S_I_D"].
Proof. reflexivity. Qed.

(** ** The stage list between the functions *)

Lemma set_get_same (o : JSObject) (k v : string) : get o k = Some v -> set o k v = o.
Proof.
  induction o as [| [k' v'] o IH]; simpl; [discriminate |].
  destruct (String.eqb_spec k' k) as [-> | Hne]; intros H.
  - injection H as ->. reflexivity.
  - rewrite (IH H). reflexivity.
Qed.

Lemma Forall2_diag {A : Type} (R : A -> A -> Prop) (l : list A) :
  Forall (fun x => R x x) l -> Forall2 R l l.
Proof. induction 1; constructor; assumption. Qed.

Lemma split_ws_plain (b : bool) (p : string) :
  p <> EmptyString -> whitespace_free p = true -> split_ws_from b p = [p].
Proof.
  revert b. induction p as [| c p IH]; intros b Hne Hw; [congruence |].
  cbn [whitespace_free] in Hw. apply andb_true_iff in Hw. destruct Hw as [Hc Hw].
  apply negb_true_iff in Hc. cbn [split_ws_from]. rewrite Hc.
  destruct p as [| d p'].
  - reflexivity.
  - rewrite (IH false); [reflexivity | discriminate | exact Hw].
Qed.

Lemma split_ws_plain_then (b : bool) (p r : string) :
  p <> EmptyString -> whitespace_free p = true ->
  split_ws_from b (p ++ String " " r) = p :: split_ws_from true r.
Proof.
  revert b. induction p as [| c p IH]; intros b Hne Hw; [congruence |].
  cbn [whitespace_free] in Hw. apply andb_true_iff in Hw. destruct Hw as [Hc Hw].
  apply negb_true_iff in Hc. cbn [append split_ws_from]. rewrite Hc.
  destruct p as [| d p'].
  - cbn [append split_ws_from]. reflexivity.
  - rewrite (IH false); [reflexivity | discriminate | exact Hw].
Qed.

Lemma split_ws_join (b : bool) (paths : list string) :
  paths <> [] -> Forall plain_path paths ->
  split_ws_from b (join " " paths) = paths.
Proof.
  intros Hne HF. revert b. induction HF as [| p rest [Hp Hw] HF IH]; intros b;
    [congruence |].
  cbn [join]. destruct rest as [| q rest'].
  - apply split_ws_plain; assumption.
  - change (p ++ " " ++ join " " (q :: rest'))
      with (p ++ String " " (join " " (q :: rest'))).
    rewrite split_ws_plain_then by assumption.
    rewrite IH by discriminate. reflexivity.
Qed.

Section StageList.

Context {W : Type} {HW : Host W}.
Variable PiGenStages : list string.

Lemma realpath_all_Ok (dirs reals : list string) (st : State W) :
  Forall2 (fun d p => host_realpath (host st) d = Some p) dirs reals ->
  realpath_all dirs st = (Ok reals, st).
Proof.
  induction 1 as [| d p dirs reals Hp _ IH]; cbn [realpath_all]; [reflexivity |].
  unfold bind, fs_realpath. rewrite Hp, IH. reflexivity.
Qed.

Lemma realpath_all_inv (dirs : list string) (st : State W) r st' :
  realpath_all dirs st = (r, st') ->
  match r with
  | Ok reals => Forall2 (fun d p => host_realpath (host st) d = Some p) dirs reals
  | Throw e =>
      exists d, In d dirs /\ host_realpath (host st) d = None /\
                e = FsError "realpath" d
  end.
Proof.
  revert r st'. induction dirs as [| d rest IH]; cbn [realpath_all]; intros r st' H.
  - inversion H. constructor.
  - unfold bind, fs_realpath in H.
    destruct (host_realpath (host st) d) as [p |] eqn:Hp.
    + destruct (realpath_all rest st) as [[ps | e] st1] eqn:Hr;
        pose proof (IH _ _ eq_refl) as Hrest; inversion H; subst.
      * constructor; assumption.
      * destruct Hrest as (d' & Hin & Hn & He).
        exists d'. split; [right; exact Hin | split; assumption].
    + inversion H; subst. exists d. split; [left; reflexivity | split; [exact Hp | reflexivity]].
Qed.

(** X9.  A stage list whose tokens are already the canonical paths they
    resolve to is left as it is: [absolutizePiGenStages] returns the
    configuration unchanged, so that serialising a configuration a second
    time gives the same stage list. *)
Theorem absolutizePiGenStages_canonical_unchanged
  (config : PiGenConfig) (piGenDirectory stageList : string) (st : State W) :
  get config "stageList" = Some stageList ->
  Forall (fun tok => resolves_to PiGenStages (host st) piGenDirectory tok tok)
    (split " " stageList) ->
  absolutizePiGenStages PiGenStages config piGenDirectory st
  = (Ok config,
     Build_State (host st)
       (trace st ++ [Log Debug (msg_resolving stageList piGenDirectory)])).
Proof.
  intros Hs HF.
  rewrite (absolutize_Ok PiGenStages config piGenDirectory stageList
             (split " " stageList) st Hs (Forall2_diag _ _ HF)).
  rewrite (join_split " "%char), (set_get_same _ _ _ Hs). reflexivity.
Qed.

(** X10.  The stage list that [absolutizePiGenStages] leaves, paths joined
    by single spaces, is read back by the export step and by the mount
    builder as exactly these paths, as long as there is a path and no path
    is empty or holds whitespace. *)
Theorem joined_stage_list_read_back
  (this : PiGen) (paths : list string) (st : State W) :
  paths <> [] -> Forall plain_path paths ->
  get (config this) "stageList" = Some (join " " paths) ->
  configureStagesImageExport PiGenStages this st
  = (Ok tt,
     Build_State (host st)
       (trace st ++ flat_map (export_events PiGenStages (host st)) paths)) /\
  (forall reals,
     Forall2 (fun d p => host_realpath (host st) d = Some p) paths reals ->
     getStagesAsDockerMounts this st = (Ok (join " " (map docker_mount reals)), st)).
Proof.
  intros Hne HF Hs. split.
  - unfold configureStagesImageExport. rewrite Hs. unfold split_ws.
    rewrite split_ws_join by assumption. apply export_stages_run.
  - intros reals HR. unfold getStagesAsDockerMounts. rewrite Hs. unfold split_ws.
    rewrite split_ws_join by assumption.
    unfold bind. rewrite (realpath_all_Ok _ _ _ HR). reflexivity.
Qed.

(** X11.  [getStagesAsDockerMounts] succeeds exactly when every
    whitespace-delimited entry of the stage list resolves, and then gives
    one mount per entry, in order, joined by spaces; when an entry does not
    resolve it throws the error of [realpath] for such an entry.  In both
    cases it leaves the state as it was. *)
Theorem getStagesAsDockerMounts_mounts
  (this : PiGen) (stageList : string) (st : State W) :
  get (config this) "stageList" = Some stageList ->
  (forall reals,
     Forall2 (fun d p => host_realpath (host st) d = Some p) (split_ws stageList) reals ->
     getStagesAsDockerMounts this st = (Ok (join " " (map docker_mount reals)), st)) /\
  (forall r st',
     getStagesAsDockerMounts this st = (r, st') ->
     st' = st /\
     match r with
     | Ok dockerOpts =>
         exists reals,
           Forall2 (fun d p => host_realpath (host st) d = Some p)
             (split_ws stageList) reals /\
           dockerOpts = join " " (map docker_mount reals)
     | Throw e =>
         exists d, In d (split_ws stageList) /\ host_realpath (host st) d = None /\
                   e = FsError "realpath" d
     end).
Proof.
  intros Hs. split.
  - intros reals HR. unfold getStagesAsDockerMounts. rewrite Hs.
    unfold bind. rewrite (realpath_all_Ok _ _ _ HR). reflexivity.
  - intros r st' H. split; [eapply getStagesAsDockerMounts_state, H |].
    unfold getStagesAsDockerMounts in H. rewrite Hs in H.
    apply bind_inv in H. destruct H as [(e & Hm & ->) | (reals & st1 & Hm & H)].
    + exact (realpath_all_inv _ _ _ _ Hm).
    + pose proof (realpath_all_inv _ _ _ _ Hm) as HR. inversion H; subst.
      exists reals. split; [exact HR | reflexivity].
Qed.

End StageList.

Lemma absolutizePiGenStages_canonical_unchanged_witness :
  absolutizePiGenStages PiGenStages_values canonical_config "/pi-gen"
    (start (pi_host quiet_run))
  = (Ok canonical_config,
     Build_State (pi_host quiet_run)
       [Log Debug (msg_resolving "/pi-gen/stage0 /work/custom-stage" "/pi-gen")]).
Proof.
  apply (absolutizePiGenStages_canonical_unchanged PiGenStages_values canonical_config
           "/pi-gen" "/pi-gen/stage0 /work/custom-stage" (start (pi_host quiet_run))).
  - reflexivity.
  - repeat constructor.
Defined.

Lemma joined_stage_list_read_back_witness :
  configureStagesImageExport PiGenStages_values (the_pigen canonical_config)
    (start (pi_host quiet_run))
  = (Ok tt,
     Build_State (pi_host quiet_run)
       [RmRF "/pi-gen/stage0/EXPORT_IMAGE";
        Log Warning (msg_custom_stage "/work/custom-stage")]).
Proof.
  apply (proj1 (joined_stage_list_read_back PiGenStages_values (the_pigen canonical_config)
                  ["/pi-gen/stage0"; "/work/custom-stage"] (start (pi_host quiet_run))
                  ltac:(discriminate)
                  ltac:(repeat constructor; discriminate)
                  eq_refl)).
Defined.

(** A resolved path that holds a space is read back as two entries. *)
Example path_with_space_is_split :
  split_ws (join " " ["/work/my stage"; "/pi-gen/stage0"])
  = ["/work/my"; "stage"; "/pi-gen/stage0"].
Proof. reflexivity. Qed.

Lemma getStagesAsDockerMounts_mounts_witness :
  getStagesAsDockerMounts (the_pigen canonical_config) (start (pi_host quiet_run))
  = (Ok "-v /pi-gen/stage0:/pi-gen/stage0 -v /work/custom-stage:/work/custom-stage",
     start (pi_host quiet_run)).
Proof.
  apply (proj1 (getStagesAsDockerMounts_mounts (the_pigen canonical_config)
                  "/pi-gen/stage0 /work/custom-stage" (start (pi_host quiet_run))
                  eq_refl)
           ["/pi-gen/stage0"; "/work/custom-stage"]).
  repeat constructor.
Defined.

(** ** The constructor, case by case *)

Section ConstructorOutcome.

Context {W : Type} {HW : Host W}.
Variable PiGenStages : list string.

(** X12.  What [new PiGen] ends with.  On success nothing was logged, and
    the instance holds the directory and the configuration as given, the
    config file path [config] under the canonical path of the directory,
    and a fresh pattern.  A target that is not a directory, or that lacks a
    required file or stage directory, gives the error "pi-gen directory at
    ... is invalid" after one debug message.  A target that [stat],
    [readdir] or [realpath] does not find gives the error of that call, and
    nothing is logged.  No other error is thrown. *)
Theorem PiGen_new_outcome
  (piGenDirectory : string) (config : PiGenConfig) (st : State W) r (st' : State W) :
  PiGen_new PiGenStages piGenDirectory config st = (r, st') ->
  match r with
  | Ok this =>
      st' = st /\
      exists real,
        host_realpath (host st) piGenDirectory = Some real /\
        this = {| piGenDirectory := piGenDirectory;
                  config := config;
                  configFilePath := real ++ "/config";
                  piGenBuildLogPattern_lastIndex := 0 |}
  | Throw (JsError m) =>
      m = msg_invalid_directory piGenDirectory /\
      host st' = host st /\
      exists d, trace st' = (trace st ++ [Log Debug d])%list
  | Throw (FsError syscall path) =>
      path = piGenDirectory /\ st' = st /\
      ((syscall = "stat" /\ host_stat (host st) piGenDirectory = None) \/
       (syscall = "scandir" /\ host_readdir (host st) piGenDirectory = None) \/
       (syscall = "realpath" /\ host_realpath (host st) piGenDirectory = None))
  | Throw _ => False
  end.
Proof.
  unfold PiGen_new, validatePigenDirectory, bind, fs_stat, fs_readdirSync, fs_realpath,
    core_debug, emit, ret, throw.
  destruct (host_stat (host st) piGenDirectory) as [dirStat |] eqn:Hstat.
  2:{ intros H. inversion H; subst. repeat split. left. split; reflexivity. }
  destruct (isDirectory dirStat tt); cbn [negb].
  2:{ intros H. inversion H; subst. cbn [host trace]. repeat split. eexists. reflexivity. }
  destruct (host_readdir (host st) piGenDirectory) as [entries |] eqn:Hread.
  2:{ intros H. inversion H; subst. repeat split.
      right. left. split; reflexivity. }
  destruct (forallb _ ["build-docker.sh"; "Dockerfile"]); cbn [negb].
  2:{ intros H. inversion H; subst. cbn [host trace]. repeat split. eexists. reflexivity. }
  destruct (forallb _ PiGenStages); cbn [negb].
  2:{ intros H. inversion H; subst. cbn [host trace]. repeat split. eexists. reflexivity. }
  destruct (host_realpath (host st) piGenDirectory) as [real |] eqn:Hreal.
  - intros H. inversion H; subst. split; [reflexivity |].
    exists real. split; reflexivity.
  - intros H. inversion H; subst. repeat split.
    right. right. split; reflexivity.
Qed.

End ConstructorOutcome.

Lemma PiGen_new_outcome_witness :
  msg_invalid_directory "/pi-gen" = msg_invalid_directory "/pi-gen" /\
  host (snd (PiGen_new PiGenStages_values "/pi-gen" scenario_config (start broken_host)))
  = broken_host /\
  exists d,
    trace (snd (PiGen_new PiGenStages_values "/pi-gen" scenario_config (start broken_host)))
    = [Log Debug d].
Proof.
  exact (PiGen_new_outcome PiGenStages_values "/pi-gen" scenario_config (start broken_host)
           (Throw (JsError (msg_invalid_directory "/pi-gen")))
           (snd (PiGen_new PiGenStages_values "/pi-gen" scenario_config (start broken_host)))
           eq_refl).
Defined.

(** ** The log filter over a whole output *)

Lemma log_pattern_search_none_pos (prev : option ascii) (s : string) (pos pos' : nat) :
  log_pattern_search prev s pos = None -> log_pattern_search prev s pos' = None.
Proof.
  revert prev pos pos'. induction s as [| c s IH]; intros prev pos pos';
    cbn [log_pattern_search]; destruct (log_pattern_at prev _); try discriminate.
  - reflexivity.
  - apply IH.
Qed.

Lemma log_pattern_search_none_suffix (prev : option ascii) (s : string) (i : nat)
  p s' (pos pos' : nat) :
  suffix_at prev s i = Some (p, s') ->
  log_pattern_search prev s pos = None ->
  log_pattern_search p s' pos' = None.
Proof.
  revert prev s pos. induction i as [| i IH]; intros prev s pos Hs Hn; cbn [suffix_at] in Hs.
  - inversion Hs; subst. eapply log_pattern_search_none_pos, Hn.
  - destruct s as [| c s]; [discriminate Hs |].
    cbn [log_pattern_search] in Hn.
    destruct (log_pattern_at prev (String c s)); [discriminate Hn |].
    exact (IH _ _ _ Hs Hn).
Qed.

(** A line in which the pattern matches nowhere fails the test from every
    [lastIndex]. *)
Lemma log_pattern_test_unmatched (lastIndex : nat) (line : string) :
  fst (log_pattern_test 0 line) = false ->
  log_pattern_test lastIndex line = (false, 0).
Proof.
  unfold log_pattern_test. cbn [suffix_at].
  destruct (log_pattern_search None line 0) as [e |] eqn:Hn; [discriminate |].
  intros _. destruct (suffix_at None line lastIndex) as [[p s] |] eqn:Hs; [| reflexivity].
  rewrite (log_pattern_search_none_suffix _ _ _ _ _ _ lastIndex Hs Hn). reflexivity.
Qed.

Lemma line_rest_single (s : string) :
  single_line s = true -> line_rest s = String.length s.
Proof.
  induction s as [| c s IH]; [reflexivity |].
  cbn [single_line line_rest String.length]. intros H.
  apply andb_true_iff in H. destruct H as [Hc Hs].
  apply negb_true_iff in Hc. rewrite Hc, (IH Hs). reflexivity.
Qed.

(** X16.  The pattern accepts, from a fresh state, every line that starts
    with a bracketed time of three pairs of digits separated by colons; the
    match runs to the end of the line. *)
Theorem log_pattern_accepts_timestamp (d1 d2 d3 d4 d5 d6 : ascii) (rest : string) :
  isDigit d1 = true -> isDigit d2 = true -> isDigit d3 = true ->
  isDigit d4 = true -> isDigit d5 = true -> isDigit d6 = true ->
  single_line rest = true ->
  log_pattern_test 0
    (String "[" (String d1 (String d2 (String ":" (String d3 (String d4 (String ":"
       (String d5 (String d6 (String "]" rest))))))))))
  = (true, 10 + String.length rest).
Proof.
  intros H1 H2 H3 H4 H5 H6 Hr.
  unfold log_pattern_test. cbn [suffix_at log_pattern_search].
  unfold log_pattern_at, two_digits_colon. cbn [skip_spaces].
  change (isSpace "[") with false. cbv beta iota.
  rewrite H1, H2. cbn [andb]. cbv beta iota.
  rewrite H3, H4. cbn [andb]. cbv beta iota.
  rewrite H5, H6. cbn [andb]. cbv beta iota.
  rewrite (line_rest_single rest Hr). reflexivity.
Qed.

Section LogFilter.

Context {W : Type} {HW : Host W}.

(** X13.  With the verbose flag set every line of the output is surfaced,
    in the order of arrival, the lines of stdout on the info channel and the
    lines of stderr on the error channel, and the instance is left as it
    was. *)
Theorem deliver_verbose_surfaces_all
  (lines : list OutputLine) (this : PiGen) (st : State W) :
  deliver (logOutput true info) (logOutput true error) lines this st
  = (this, Build_State (host st) (trace st ++ map log_of lines)).
Proof.
  revert st. induction lines as [| l rest IH]; intros st; cbn [deliver map].
  - rewrite app_nil_r. destruct st; reflexivity.
  - destruct l as [line | line]; rewrite logOutput_verbose, IH;
      unfold surface, core_info, core_error, emit; cbn [snd host trace];
      rewrite <- app_assoc; reflexivity.
Qed.

(** X14.  With the verbose flag unset a line in which the pattern matches
    nowhere is never surfaced, whatever was delivered before it. *)
Theorem logOutput_suppresses_unmatched
  (stream : StreamName) (line : string) (this : PiGen) (st : State W) :
  fst (log_pattern_test 0 line) = false ->
  logOutput false stream line this st = (set_lastIndex this 0, st).
Proof.
  intros Hn. rewrite logOutput_pattern.
  rewrite (log_pattern_test_unmatched _ line Hn). reflexivity.
Qed.


End LogFilter.

Lemma logOutput_suppresses_unmatched_witness :
  logOutput false info "Unpacking base system" (the_pigen scenario_config)
    (start (pi_host quiet_run))
  = (set_lastIndex (the_pigen scenario_config) 0, start (pi_host quiet_run)).
Proof.
  apply (logOutput_suppresses_unmatched info "Unpacking base system"
           (the_pigen scenario_config) (start (pi_host quiet_run))).
  reflexivity.
Defined.


Lemma log_pattern_accepts_timestamp_witness :
  log_pattern_test 0 "[12:34:56] Begin stage0" = (true, 23).
Proof.
  apply (log_pattern_accepts_timestamp "1" "2" "3" "4" "5" "6" " Begin stage0");
    reflexivity.
Defined.

Example log_pattern_examples :
  map (fun line => fst (log_pattern_test 0 line))
    ["[12:34:56] Begin"; "  [123456]"; "[12:34] short"; "at [12:34:56] inside";
     "[1a:34:56] letters"]
  = [true; true; false; false; false].
Proof. reflexivity. Qed.

(** ** The order of the effects of build *)

Section BuildOrder.

Context {W : Type} {HW : Host W}.
Variable PiGenStages : list string.

Lemma logOutput_run (verbose : bool) (stream : StreamName) (line : string)
  (this : PiGen) (st : State W) :
  exists this' logs,
    logOutput verbose stream line this st
    = (this', Build_State (host st) (trace st ++ logs)) /\
    Forall (fun ev => is_output_log ev = true) logs /\
    piGenDirectory this' = piGenDirectory this /\
    config this' = config this /\
    configFilePath this' = configFilePath this.
Proof.
  assert (Hsurf : forall s l,
             surface s l st
             = Build_State (host st)
                 (trace st ++ [Log (match s with info => Info | error => ErrorLevel end) l])).
  { intros [] l; reflexivity. }
  destruct verbose.
  - exists this. eexists. rewrite logOutput_verbose, Hsurf.
    split; [reflexivity |]. split; [| repeat split].
    destruct stream; repeat constructor.
  - rewrite logOutput_pattern.
    destruct (fst (log_pattern_test (piGenBuildLogPattern_lastIndex this) line)).
    + eexists. eexists. rewrite Hsurf. split; [reflexivity |].
      split; [| repeat split]. destruct stream; repeat constructor.
    + eexists. exists []. rewrite state_eta. split; [reflexivity |].
      split; [constructor | repeat split].
Qed.

Lemma deliver_logOutput_run (verbose : bool) (lines : list OutputLine)
  (this : PiGen) (st : State W) :
  exists this' logs,
    deliver (logOutput verbose info) (logOutput verbose error) lines this st
    = (this', Build_State (host st) (trace st ++ logs)) /\
    Forall (fun ev => is_output_log ev = true) logs /\
    piGenDirectory this' = piGenDirectory this /\
    config this' = config this /\
    configFilePath this' = configFilePath this.
Proof.
  revert this st. induction lines as [| l rest IH]; intros this st; cbn [deliver].
  - exists this, []. rewrite state_eta. split; [reflexivity |].
    split; [constructor | repeat split].
  - assert (Hone : exists this1 l1,
               (match l with
                | Stdline line => logOutput verbose info line this st
                | Errline line => logOutput verbose error line this st
                end) = (this1, Build_State (host st) (trace st ++ l1)) /\
               Forall (fun ev => is_output_log ev = true) l1 /\
               piGenDirectory this1 = piGenDirectory this /\
               config this1 = config this /\
               configFilePath this1 = configFilePath this).
    { destruct l; apply logOutput_run. }
    destruct Hone as (this1 & l1 & H1 & F1 & Hd & Hc & Hf).
    destruct (IH this1 (Build_State (host st) (trace st ++ l1)))
      as (this2 & l2 & H2 & F2 & Hd2 & Hc2 & Hf2).
    exists this2, (l1 ++ l2)%list.
    split.
    + destruct l; rewrite H1, H2; cbn [host trace]; rewrite <- app_assoc; reflexivity.
    + split; [apply Forall_app; split; assumption |].
      repeat split; congruence.
Qed.

(** X17.  A call of [build] that returns has done these things, in this
    order: it resolved the stage list and rewrote it in the configuration,
    wrote the config file, requested the removals and emitted the warnings
    of the export step for the rewritten stage list, resolved the entries
    once more for the mounts, started the build script with the path of the
    config file that it wrote, and surfaced lines of its output.  The
    instance afterwards holds the rewritten configuration. *)
Theorem build_order_of_effects
  (this : PiGen) (verbose : bool) (st : State W)
  (this' : PiGen) (out : ExecOutput) (st' : State W) :
  build PiGenStages this verbose st = (Ok (this', out), st') ->
  exists stageList paths h1 reals logs,
    get (config this) "stageList" = Some stageList /\
    Forall2 (resolves_to PiGenStages (host st) (piGenDirectory this))
      (split " " stageList) paths /\
    config this' = set (config this) "stageList" (join " " paths) /\
    piGenDirectory this' = piGenDirectory this /\
    configFilePath this' = configFilePath this /\
    host_writeFile (host st) (configFilePath this) (configContent (config this'))
    = Some h1 /\
    Forall2 (fun d p => host_realpath h1 d = Some p) (split_ws (join " " paths)) reals /\
    trace st'
    = (trace st
       ++ [Log Debug (msg_writing this);
           Log Debug (msg_resolving stageList (piGenDirectory this));
           WriteFile (configFilePath this) (configContent (config this'))]
       ++ flat_map (export_events PiGenStages h1) (split_ws (join " " paths))
       ++ [Log Debug (msg_running (join " " (map docker_mount reals)) (config this'));
           Exec build_command ["-c"; configFilePath this]
             (build_options this (join " " (map docker_mount reals)))]
       ++ logs)%list /\
    Forall (fun ev => is_output_log ev = true) logs.
Proof.
  unfold build. intros H.
  apply bind_Ok in H. destruct H as ([] & st1 & Hd & H).
  unfold core_debug, emit in Hd. inversion Hd; subst st1. clear Hd.
  apply bind_Ok in H. destruct H as (config' & st2 & Hw & H).
  destruct (get (config this) "stageList") as [stageList |] eqn:Hs.
  2:{ unfold writeToFile, absolutizePiGenStages, bind in Hw. rewrite Hs in Hw.
      discriminate Hw. }
  destruct (writeToFile_inv PiGenStages _ _ _ _ _ _ _ Hs Hw)
    as (paths & h1 & Hp & Hc & Hwf & Hst2).
  cbn [host trace] in Hp, Hwf, Hst2. subst st2. clear Hw.
  apply bind_Ok in H. destruct H as ([] & st3 & He & H).
  unfold configureStagesImageExport in He. cbn [config] in He.
  assert (Hg' : get config' "stageList" = Some (join " " paths))
    by (rewrite Hc; apply get_set_same).
  rewrite Hg' in He. rewrite export_stages_run in He. cbn [host trace] in He.
  inversion He; subst st3. clear He.
  apply bind_Ok in H. destruct H as (dockerOpts & st4 & Hg & H).
  pose proof (getStagesAsDockerMounts_state _ _ _ _ Hg) as Hst4. subst st4.
  unfold getStagesAsDockerMounts in Hg. cbn [config] in Hg. rewrite Hg' in Hg.
  apply bind_Ok in Hg. destruct Hg as (reals & st5 & Hr & Hg).
  pose proof (realpath_all_inv _ _ _ _ Hr) as HR. cbn [host] in HR.
  unfold ret in Hg. injection Hg as Hdo _. clear Hr st5.
  apply bind_Ok in H. destruct H as ([] & st6 & Hd & H).
  unfold core_debug, emit in Hd. cbn [host trace] in Hd. inversion Hd; subst st6. clear Hd.
  unfold getExecOutput in H. cbn [host trace configFilePath] in H.
  destruct (host_spawn h1 build_command _ _) as [run h2].
  destruct run as [pr |]; [| discriminate H].
  match type of H with
  | context [deliver ?l1 ?l2 ?ls ?t ?s] =>
      destruct (deliver_logOutput_run verbose ls t s)
        as (this2 & logs & Hdel & HF & Hdir & Hcfg & Hfile)
  end.
  rewrite Hdel in H. cbn [host trace piGenDirectory config configFilePath] in *.
  destruct (negb (pr_exitCode pr =? 0)%Z && _); [discriminate H |].
  inversion H; subst this' st'. clear H.
  exists stageList, paths, h1, reals, logs.
  rewrite Hcfg, Hdir, Hfile. subst dockerOpts.
  repeat split; try assumption.
  cbn [trace]. repeat rewrite <- app_assoc. reflexivity.
Qed.

Lemma Forall2_In_l {A B : Type} (R : A -> B -> Prop) (l : list A) (l' : list B) (x : A) :
  Forall2 R l l' -> In x l -> exists y, R x y.
Proof.
  induction 1 as [| a b l l' Hab _ IH]; intros Hin; [destruct Hin |].
  destruct Hin as [<- | Hin]; [exists b; exact Hab | exact (IH Hin)].
Qed.

(** X18.  A stage of the list that does not resolve makes [build] fail
    before it has any effect but its two debug messages: no file is
    written, no removal is requested and the build script is not started. *)
Theorem build_fails_on_unresolved_stage
  (this : PiGen) (verbose : bool) (stageList tok : string) (st : State W) :
  get (config this) "stageList" = Some stageList ->
  In tok (split " " stageList) ->
  host_realpath (host st) (stage_target PiGenStages (piGenDirectory this) tok) = None ->
  exists e,
    build PiGenStages this verbose st
    = (Throw e,
       Build_State (host st)
         (trace st ++ [Log Debug (msg_writing this);
                       Log Debug (msg_resolving stageList (piGenDirectory this))])).
Proof.
  intros Hs Hin Hn. unfold build.
  unfold bind at 1. unfold core_debug at 1. unfold emit. cbv beta iota.
  unfold bind at 1. unfold writeToFile. unfold bind at 1.
  destruct (absolutizePiGenStages PiGenStages (config this) (piGenDirectory this) _)
    as [r st1] eqn:Ha.
  destruct (absolutize_inv _ _ _ _ _ _ _ Hs Ha) as [-> Hr].
  cbn [host trace] in *.
  destruct r as [config' | e].
  - exfalso. destruct Hr as (paths & Hp & _).
    destruct (Forall2_In_l _ _ _ _ Hp Hin) as (p & Hres).
    unfold resolves_to in Hres. congruence.
  - exists e. rewrite <- app_assoc. reflexivity.
Qed.

End BuildOrder.

Lemma build_order_of_effects_witness :
  let this := the_pigen custom_stage_config in
  let st := start (pi_host timestamped_run) in
  let this' :=
    {| piGenDirectory := "/pi-gen";
       config := set custom_stage_config "stageList" "/pi-gen/stage0 /work/custom-stage";
       configFilePath := "/pi-gen/config";
       piGenBuildLogPattern_lastIndex := 0 |} in
  let st' := snd (build PiGenStages_values this false st) in
  exists stageList paths h1 reals logs,
    get (config this) "stageList" = Some stageList /\
    Forall2 (resolves_to PiGenStages_values (host st) (piGenDirectory this))
      (split " " stageList) paths /\
    config this' = set (config this) "stageList" (join " " paths) /\
    piGenDirectory this' = piGenDirectory this /\
    configFilePath this' = configFilePath this /\
    host_writeFile (host st) (configFilePath this) (configContent (config this'))
    = Some h1 /\
    Forall2 (fun d p => host_realpath h1 d = Some p) (split_ws (join " " paths)) reals /\
    trace st'
    = (trace st
       ++ [Log Debug (msg_writing this);
           Log Debug (msg_resolving stageList (piGenDirectory this));
           WriteFile (configFilePath this) (configContent (config this'))]
       ++ flat_map (export_events PiGenStages_values h1) (split_ws (join " " paths))
       ++ [Log Debug (msg_running (join " " (map docker_mount reals)) (config this'));
           Exec build_command ["-c"; configFilePath this]
             (build_options this (join " " (map docker_mount reals)))]
       ++ logs)%list /\
    Forall (fun ev => is_output_log ev = true) logs.
Proof.
  intros this st this' st'.
  apply (build_order_of_effects PiGenStages_values this false st this'
           (output_of timestamped_run) st').
  vm_compute. reflexivity.
Defined.

Example build_trace_example :
  filter (fun ev => match ev with Log Debug _ => false | _ => true end)
    (trace (snd (build PiGenStages_values (the_pigen custom_stage_config) true
                   (start (pi_host timestamped_run)))))
  = [ WriteFile "/pi-gen/config"
        (configContent
           (set custom_stage_config "stageList" "/pi-gen/stage0 /work/custom-stage"));
      RmRF "/pi-gen/stage0/EXPORT_IMAGE";
      Log Warning (msg_custom_stage "/work/custom-stage");
      Exec build_command ["-c"; "/pi-gen/config"]
        (build_options (the_pigen custom_stage_config)
           "-v /pi-gen/stage0:/pi-gen/stage0 -v /work/custom-stage:/work/custom-stage");
      Log Info "[00:00:01] Begin stage0"; Log Info "[00:00:02] End stage0";
      Log Info "Unpacking base system" ].
Proof. vm_compute. reflexivity. Qed.

Lemma build_fails_on_unresolved_stage_witness :
  exists e,
    build PiGenStages_values
      (the_pigen (set DEFAULT_CONFIG "stageList" "stage0 nowhere")) false
      (start (pi_host quiet_run))
    = (Throw e,
       Build_State (pi_host quiet_run)
         [Log Debug (msg_writing (the_pigen (set DEFAULT_CONFIG "stageList" "stage0 nowhere")));
          Log Debug (msg_resolving "stage0 nowhere" "/pi-gen")]).
Proof.
  apply (build_fails_on_unresolved_stage PiGenStages_values
           (the_pigen (set DEFAULT_CONFIG "stageList" "stage0 nowhere")) false
           "stage0 nowhere" "nowhere" (start (pi_host quiet_run))).
  - reflexivity.
  - right. left. reflexivity.
  - reflexivity.
Defined.
